(** * The streaming event accumulators of [gradio_client/backend_tester.py]

    A shallow embedding of [BackendTester.test_stream_generation],
    [BackendTester.test_vision_stream_analysis] and of the request guards of
    [test_standard_generation] and [test_vision_analysis].

    Conventions of the embedding.
    - A Python [str] is the list of its Unicode code points.
    - [json.loads] is a library function: an event carries its outcome, a
      decoded value, a [JSONDecodeError], or one of the other exceptions
      the decoder raises.
    - [time.time()] is an input: the session start and every event carry the
      reading the clock gives when the code asks for it, as a rational.
    - A yielded pair (display text, log line) is a [snapshot]: one constructor
      per f-string of the source, holding the values the f-string
      interpolates.
    - [session.post] is an input too: a function from the request to what the
      backend answers; the requests a call posts are part of its result. *)

From Stdlib Require Import List ZArith QArith Bool String Ascii Lia.
From Stdlib Require Import Sorted.
Import ListNotations.
Close Scope Q_scope.
Set Warnings "-register-all".
Local Open Scope nat_scope.

(* ================================================================== *)
(** ** Python strings *)

Definition codepoint := N.
Definition str := list codepoint.

(** An ASCII literal of the source as a [str]. *)
Definition lit (s : string) : str := map N_of_ascii (list_ascii_of_string s).

Fixpoint str_eqb (a b : str) : bool :=
  match a, b with
  | [], [] => true
  | x :: a', y :: b' => N.eqb x y && str_eqb a' b'
  | _, _ => false
  end.

(** [str.isspace] on one code point: the table of CPython's
    [_PyUnicode_IsWhitespace]. *)
Definition is_whitespace (c : codepoint) : bool :=
  ((9 <=? c) && (c <=? 13) || (28 <=? c) && (c <=? 32)
   || (c =? 133) || (c =? 160) || (c =? 5760)
   || (8192 <=? c) && (c <=? 8202)
   || (c =? 8232) || (c =? 8233) || (c =? 8239) || (c =? 8287)
   || (c =? 12288))%N.

Fixpoint lstrip (s : str) : str :=
  match s with
  | c :: s' => if is_whitespace c then lstrip s' else s
  | [] => []
  end.

Definition rstrip (s : str) : str := rev (lstrip (rev s)).

(** [s.strip()] *)
Definition strip (s : str) : str := rstrip (lstrip s).

Fixpoint startswith (s p : str) {struct p} : bool :=
  match p, s with
  | [], _ => true
  | x :: p', y :: s' => N.eqb x y && startswith s' p'
  | _ :: _, [] => false
  end.

(** [sub in s] for two strings: [sub] occurs in [s] as a contiguous run. *)
Fixpoint contains (s sub : str) : bool :=
  startswith s sub ||
  match s with
  | [] => false
  | _ :: s' => contains s' sub
  end.

(* ================================================================== *)
(** ** Decoded JSON values, as Python objects *)

(** What [json.loads] builds.  A [dict] keeps its keys in insertion order
    (iterating it yields them in that order), hence the association list;
    [json.loads] never builds one with a repeated key.  [JFloat q] is the
    float whose exact value is [q]; the literals NaN and Infinity are left
    out. *)
Inductive json : Type :=
| JNull
| JBool (b : bool)
| JInt (z : Z)
| JFloat (q : Q)
| JStr (s : str)
| JList (items : list json)
| JObj (fields : list (str * json)).

Inductive exn : Type :=
| AttributeError
| TypeError
| KeyError
| IndexError
| ValueError
| ZeroDivisionError
| TransportError
| RecursionError
| OverflowError.

Inductive result (A : Type) : Type :=
| Ok (a : A)
| Raise (e : exn).
Arguments Ok {A} a.
Arguments Raise {A} e.

Definition bind {A B} (r : result A) (k : A -> result B) : result B :=
  match r with
  | Ok a => k a
  | Raise e => Raise e
  end.

Notation "x <- r ;; k" := (bind r (fun x => k))
  (at level 61, r at next level, right associativity).

(** [bool(v)] *)
Definition truthy (v : json) : bool :=
  match v with
  | JNull => false
  | JBool b => b
  | JInt z => negb (Z.eqb z 0)
  | JFloat q => negb (Qeq_bool q 0)
  | JStr s => match s with [] => false | _ => true end
  | JList l => match l with [] => false | _ => true end
  | JObj d => match d with [] => false | _ => true end
  end.

(** [v == True]: [True] equals the numbers of value one. *)
Definition eq_True (v : json) : bool :=
  match v with
  | JBool b => b
  | JInt z => Z.eqb z 1
  | JFloat q => Qeq_bool q 1
  | _ => false
  end.

(** [v == s] for a string literal [s]. *)
Definition eq_str (v : json) (s : str) : bool :=
  match v with
  | JStr t => str_eqb t s
  | _ => false
  end.

(** The value a dict binds to [key], if any. *)
Fixpoint lookup (key : str) (d : list (str * json)) : option json :=
  match d with
  | [] => None
  | (k, v) :: d' => if str_eqb k key then Some v else lookup key d'
  end.

(** [key in d] on a dict. *)
Definition dict_has (d : list (str * json)) (key : str) : bool :=
  match lookup key d with
  | Some _ => true
  | None => false
  end.

(** [d.get(key)] on a dict, which is [d[key]] when the key is there. *)
Definition dict_get (d : list (str * json)) (key : str) : json :=
  match lookup key d with
  | Some v => v
  | None => JNull
  end.

(** [v.get(key, default)] on any value: only a dict has [get]. *)
Definition py_get (v : json) (key : str) (default : json) : result json :=
  match v with
  | JObj d => Ok (match lookup key d with Some x => x | None => default end)
  | _ => Raise AttributeError
  end.

(** [len(v)] *)
Definition py_len (v : json) : result nat :=
  match v with
  | JStr s => Ok (List.length s)
  | JList l => Ok (List.length l)
  | JObj d => Ok (List.length d)
  | _ => Raise TypeError
  end.

(** [v[0]] *)
Definition py_first (v : json) : result json :=
  match v with
  | JList (x :: _) => Ok x
  | JList [] => Raise IndexError
  | JStr (c :: _) => Ok (JStr [c])
  | JStr [] => Raise IndexError
  | JObj _ => Raise KeyError
  | _ => Raise TypeError
  end.

(** The numbers: [bool] is a subclass of [int]. *)
Definition as_number (v : json) : option (Z + Q) :=
  match v with
  | JBool b => Some (inl (if b then 1 else 0)%Z)
  | JInt z => Some (inl z)
  | JFloat q => Some (inr q)
  | _ => None
  end.

(** [float(n)] of an [int]: the conversion rounds to the nearest float and
    raises [OverflowError] once that is beyond the largest one,
    [2^1024 - 2^971]. *)
Definition fits_float (n : Z) : bool := (Z.abs n <? 2 ^ 1024 - 2 ^ 970)%Z.

(** [a + b] on numbers.  An [int] met by a float is converted first, which
    may raise.  With a float operand the sum is given exactly: the rounding
    of the float sum is not modelled.  It is not observable: wherever the
    loop adds two numbers, the [len] that follows raises. *)
Definition number_add (a b : Z + Q) : result json :=
  match a, b with
  | inl x, inl y => Ok (JInt (x + y))
  | inl x, inr q =>
      if fits_float x then Ok (JFloat (Qplus (inject_Z x) q))
      else Raise OverflowError
  | inr p, inl y =>
      if fits_float y then Ok (JFloat (Qplus p (inject_Z y)))
      else Raise OverflowError
  | inr p, inr q => Ok (JFloat (Qplus p q))
  end.

(** What iterating over [v] yields, for [list.extend]. *)
Definition py_iter (v : json) : result (list json) :=
  match v with
  | JStr s => Ok (map (fun c => JStr [c]) s)
  | JList l => Ok l
  | JObj d => Ok (map (fun kv => JStr (fst kv)) d)
  | _ => Raise TypeError
  end.

(** [acc += delta]: the value bound to [acc] afterwards.
    [str] takes a [str]; [list.__iadd__] extends with any iterable; numbers
    add; [None] and [dict] have no addition. *)
Definition py_iadd (acc delta : json) : result json :=
  match acc with
  | JStr s =>
      match delta with
      | JStr t => Ok (JStr (s ++ t))
      | _ => Raise TypeError
      end
  | JList l => xs <- py_iter delta ;; Ok (JList (l ++ xs))
  | JNull | JObj _ => Raise TypeError
  | JBool _ | JInt _ | JFloat _ =>
      match as_number acc, as_number delta with
      | Some a, Some b => number_add a b
      | _, _ => Raise TypeError
      end
  end.

(** [x / n] for a float [x] and an int [n]. *)
Definition py_truediv (x : Q) (n : nat) : result Q :=
  match n with
  | O => Raise ZeroDivisionError
  | S _ => Ok (Qdiv x (inject_Z (Z.of_nat n)))
  end.

(** [(t1 - t0) * 1000] *)
Definition millis (t0 t1 : Q) : Q := Qmult (Qminus t1 t0) (inject_Z 1000).

(* ================================================================== *)
(** ** Events, sessions and snapshots *)

(** What [json.loads] raises besides [JSONDecodeError]: [RecursionError]
    on a payload nested too deep, [ValueError] on an integer with more
    digits than the interpreter converts. *)
Inductive load_failure : Type :=
| TooDeep
| TooManyDigits.

Definition raised_by (why : load_failure) : exn :=
  match why with
  | TooDeep => RecursionError
  | TooManyDigits => ValueError
  end.

(** The outcome of [json.loads(event.data)]. *)
Inductive decoded : Type :=
| JSONDecodeError
| Loaded (data : json)
| LoadRaised (why : load_failure).

(** One item of [client.events()]: the decoded payload and the reading of
    [time.time()] while the event is handled. *)
Record sse_event : Type := {
  ev_data : decoded;
  ev_clock : Q
}.

(** The locals [accumulated_text] and [chunk_count] of
    [test_stream_generation].  [accumulated_text] starts as a string, but
    the legacy branch binds it to whatever the [text] field holds. *)
Record stream_session : Type := {
  accumulated_text : json;
  chunk_count : nat
}.

(** The same locals of [test_vision_stream_analysis]: there
    [accumulated_text] starts as the empty string and is only ever rebound
    by [+=], which on a string gives a string or raises. *)
Record vision_session : Type := {
  v_accumulated_text : str;
  v_chunk_count : nat
}.

(** The user message chosen from the status code of an [HTTPError]. *)
Inductive http_message : Type :=
| BadRequest (text : str)
| PayloadTooLarge
| RateLimited
| ServerError (text : str)
| ServiceBusy
| OtherStatus (status : Z) (text : str).

(** What is read out of a non-streaming answer. *)
Inductive extracted : Type :=
| CandidateText (text : json)
| Unparsable
| NoCandidates.

(** What the operations yield or return. *)
Inductive snapshot : Type :=
| QuestionMissing
| ImageMissing
| Connecting
| Connected
| StreamDone (accumulated : json) (total_duration : Q) (chunks : nat)
             (per_chunk : Q) (chars : nat)
| StreamFailure (error : json)
| StreamDelta (delta accumulated : json) (duration : Q) (chunks : nat)
              (chars : nat) (delta_chars : nat)
| StreamLegacy (accumulated : json) (duration : Q) (chunks : nat)
| VisionDone (accumulated : str) (total_duration : Q) (chunks : nat)
             (finish_reason : option json) (chars : nat)
| VisionFailure (error : json)
| VisionDelta (delta : json) (accumulated : str) (duration : Q)
              (chunks : nat) (chars : nat) (delta_chars : nat)
| VisionNearFinal (final_delta : json) (accumulated : str) (duration : Q)
                  (chunks : nat) (chars : nat) (delta_chars : nat)
| Generated (text : extracted) (duration : Q) (succeeded : bool)
| HttpFailure (message : http_message)
| RequestFailed (e : exn).

(** How the body of the [for] loop leaves one event. *)
Inductive outcome (S : Type) : Type :=
| Continue (st : S) (out : option snapshot)
| Finished (st : S) (out : snapshot)
| Crashed (st : S) (e : exn).
Arguments Continue {S} st out.
Arguments Finished {S} st out.
Arguments Crashed {S} st e.

(** The locals as the body leaves them. *)
Definition state_of {S} (o : outcome S) : S :=
  match o with
  | Continue st _ | Finished st _ | Crashed st _ => st
  end.

(* ================================================================== *)
(** ** [test_stream_generation]: the loop over the events *)

Definition k_done := lit "done".
Definition k_error := lit "error".
Definition k_content := lit "content".
Definition k_text := lit "text".
Definition k_finishReason := lit "finishReason".
Definition k_status := lit "status".
Definition k_finalText := lit "finalText".
Definition s_completed := lit "completed".

(** The body of the [try] once [json.loads] has returned [data]; the
    counter has been incremented already. *)
Definition stream_dispatch (start_time now : Q) (st : stream_session)
    (data : json) : outcome stream_session :=
  match data with
  | JObj d =>
      if eq_True (dict_get d k_done) then
        let total_duration := millis start_time now in
        match
          per_chunk <- py_truediv total_duration (chunk_count st) ;;
          chars <- py_len (accumulated_text st) ;;
          Ok (StreamDone (accumulated_text st) total_duration
                (chunk_count st) per_chunk chars)
        with
        | Ok final_result => Finished st final_result
        | Raise e => Crashed st e
        end
      else if dict_has d k_error then
        Finished st (StreamFailure (dict_get d k_error))
      else if dict_has d k_content && truthy (dict_get d k_content) then
        let delta_text := dict_get d k_content in
        match py_iadd (accumulated_text st) delta_text with
        | Raise e => Crashed st e
        | Ok acc =>
            let st' := {| accumulated_text := acc;
                          chunk_count := chunk_count st |} in
            match
              chars <- py_len acc ;;
              delta_chars <- py_len delta_text ;;
              Ok (StreamDelta delta_text acc (millis start_time now)
                    (chunk_count st) chars delta_chars)
            with
            | Ok display_text => Continue st' (Some display_text)
            | Raise e => Crashed st' e
            end
        end
      else if dict_has d k_text then
        let full := dict_get d k_text in
        Continue {| accumulated_text := full; chunk_count := chunk_count st |}
                 (Some (StreamLegacy full (millis start_time now)
                          (chunk_count st)))
      else Continue st None
  | _ => Crashed st AttributeError
  end.

(** [chunk_count += 1] *)
Definition count_chunk (st : stream_session) : stream_session :=
  {| accumulated_text := accumulated_text st;
     chunk_count := S (chunk_count st) |}.

(** One turn of [for event in client.events()]. *)
Definition stream_step (start_time : Q) (st : stream_session)
    (event : sse_event) : outcome stream_session :=
  let st1 := count_chunk st in
  match ev_data event with
  | JSONDecodeError => Continue st1 None
  | Loaded data => stream_dispatch start_time (ev_clock event) st1 data
  | LoadRaised why => Crashed st1 (raised_by why)
  end.

(* ================================================================== *)
(** ** [test_vision_stream_analysis]: the loop over the events *)

(** [acc += delta] when [acc] is a string. *)
Definition str_iadd (acc : str) (delta : json) : result str :=
  match delta with
  | JStr t => Ok (acc ++ t)
  | _ => Raise TypeError
  end.

(** [x in acc] when [acc] is a string: the left operand must be one. *)
Definition str_in (x : json) (acc : str) : result bool :=
  match x with
  | JStr t => Ok (contains acc t)
  | _ => Raise TypeError
  end.

Definition vision_dispatch (start_time now : Q) (st : vision_session)
    (data : json) : outcome vision_session :=
  match data with
  | JObj d =>
      if truthy (dict_get d k_finishReason)
         || eq_str (dict_get d k_status) s_completed then
        Finished st
          (VisionDone (v_accumulated_text st) (millis start_time now)
             (v_chunk_count st) (lookup k_finishReason d)
             (List.length (v_accumulated_text st)))
      else if dict_has d k_error then
        Finished st (VisionFailure (dict_get d k_error))
      else if dict_has d k_text then
        let delta_text := dict_get d k_text in
        match str_iadd (v_accumulated_text st) delta_text with
        | Raise e => Crashed st e
        | Ok acc =>
            let st' := {| v_accumulated_text := acc;
                          v_chunk_count := v_chunk_count st |} in
            match py_len delta_text with
            | Ok delta_chars =>
                Continue st'
                  (Some (VisionDelta delta_text acc (millis start_time now)
                           (v_chunk_count st) (List.length acc) delta_chars))
            | Raise e => Crashed st' e
            end
        end
      else if dict_has d k_finalText then
        let final_delta := dict_get d k_finalText in
        match
          (if truthy final_delta then
             present <- str_in final_delta (v_accumulated_text st) ;;
             if negb present
             then str_iadd (v_accumulated_text st) final_delta
             else Ok (v_accumulated_text st)
           else Ok (v_accumulated_text st))
        with
        | Raise e => Crashed st e
        | Ok acc =>
            let st' := {| v_accumulated_text := acc;
                          v_chunk_count := v_chunk_count st |} in
            match (if truthy final_delta then py_len final_delta else Ok 0)
            with
            | Ok delta_chars =>
                Continue st'
                  (Some (VisionNearFinal final_delta acc
                           (millis start_time now) (v_chunk_count st)
                           (List.length acc) delta_chars))
            | Raise e => Crashed st' e
            end
        end
      else Continue st None
  | _ => Crashed st AttributeError
  end.

(** [chunk_count += 1] *)
Definition v_count_chunk (st : vision_session) : vision_session :=
  {| v_accumulated_text := v_accumulated_text st;
     v_chunk_count := S (v_chunk_count st) |}.

Definition vision_step (start_time : Q) (st : vision_session)
    (event : sse_event) : outcome vision_session :=
  let st1 := v_count_chunk st in
  match ev_data event with
  | JSONDecodeError => Continue st1 None
  | Loaded data => vision_dispatch start_time (ev_clock event) st1 data
  | LoadRaised why => Crashed st1 (raised_by why)
  end.

(* ================================================================== *)
(** ** The [for] loop *)

Inductive ending : Type :=
| Exhausted            (* the iterator ran out *)
| Returned             (* [return] after a terminal event *)
| Excepted (e : exn).  (* an exception left the loop *)

(** What a run of the loop leaves: the snapshots yielded in order, the
    locals at the end, how it ended, and the events never pulled from the
    iterator. *)
Record run (S : Type) : Type := {
  yielded : list snapshot;
  final : S;
  how : ending;
  unread : list sse_event
}.
Arguments yielded {S} r.
Arguments final {S} r.
Arguments how {S} r.
Arguments unread {S} r.

Definition emit {S} (out : option snapshot) (r : run S) : run S :=
  {| yielded := match out with Some x => x :: yielded r | None => yielded r end;
     final := final r; how := how r; unread := unread r |}.

Section Loop.
Context {S : Type}.
Variable step : S -> sse_event -> outcome S.

Fixpoint for_events (st : S) (events : list sse_event) : run S :=
  match events with
  | [] => {| yielded := []; final := st; how := Exhausted; unread := [] |}
  | event :: rest =>
      match step st event with
      | Continue st' out => emit out (for_events st' rest)
      | Finished st' out =>
          {| yielded := [out]; final := st'; how := Returned;
             unread := rest |}
      | Crashed st' e =>
          {| yielded := []; final := st'; how := Excepted e;
             unread := rest |}
      end
  end.
End Loop.

Definition stream_start : stream_session :=
  {| accumulated_text := JStr []; chunk_count := 0 |}.

Definition vision_start : vision_session :=
  {| v_accumulated_text := []; v_chunk_count := 0 |}.

Definition stream_loop (start_time : Q) :=
  for_events (stream_step start_time) stream_start.

Definition vision_loop (start_time : Q) :=
  for_events (vision_step start_time) vision_start.

(* ================================================================== *)
(** ** Requests and answers *)

Record BackendTester : Type := {
  base_url : str
}.

Record request : Type := {
  url : str;
  payload : json;
  streamed : bool
}.

(** An answer of the backend, by what the code reads from it:
    [status_code], [text], the outcome of [response.json()] and, for a
    streamed answer, the events of [sseclient.SSEClient(response)]. *)
Record response : Type := {
  status_code : Z;
  text : str;
  body : decoded;
  events : list sse_event
}.

(** [session.post(...)] returns an answer or raises (no connection, ...). *)
Inductive posted : Type :=
| PostRaised
| PostReturned (r : response).

(** A PIL image, by what the code reads from it: its size and the base64
    text of its RGB conversion saved as JPEG, or the exception PIL raises. *)
Record pil_image : Type := {
  size : Z * Z;
  jpeg_base64 : result str
}.

(** What a call gives back: the pairs it returns or yields, in order, and
    the requests it posted. *)
Record call : Type := {
  outputs : list snapshot;
  posts : list request
}.

(** [response.raise_for_status()] raises on a 4xx or 5xx status. *)
Definition raises_for_status (r : response) : bool :=
  ((400 <=? status_code r) && (status_code r <? 600))%Z.

Definition generation_http_message (r : response) : http_message :=
  if (status_code r =? 400)%Z then BadRequest (text r)
  else if (status_code r =? 429)%Z then RateLimited
  else if (status_code r =? 500)%Z then ServerError (text r)
  else OtherStatus (status_code r) (text r).

Definition stream_http_message (r : response) : http_message :=
  if (status_code r =? 400)%Z then BadRequest (text r)
  else if (status_code r =? 429)%Z then RateLimited
  else if (status_code r =? 503)%Z then ServiceBusy
  else OtherStatus (status_code r) (text r).

Definition vision_http_message (r : response) : http_message :=
  if (status_code r =? 400)%Z then BadRequest (text r)
  else if (status_code r =? 413)%Z then PayloadTooLarge
  else if (status_code r =? 429)%Z then RateLimited
  else if (status_code r =? 500)%Z then ServerError (text r)
  else OtherStatus (status_code r) (text r).

(** The text of the first candidate of a non-streaming answer; [missing] is
    the default of the innermost [get]. *)
Definition extract_text (data : json) (missing : str) : result extracted :=
  candidates <- py_get data (lit "candidates") JNull ;;
  if truthy candidates then
    n <- py_len candidates ;;
    if 0 <? n then
      candidate <- py_first candidates ;;
      content <- py_get candidate (lit "content") JNull ;;
      if truthy content then
        parts <- py_get content (lit "parts") JNull ;;
        if truthy parts then
          part <- py_first parts ;;
          found <- py_get part (lit "text") (JStr missing) ;;
          Ok (CandidateText found)
        else Ok Unparsable
      else Ok Unparsable
    else Ok NoCandidates
  else Ok NoCandidates.

(** [text != missing], the success mark of the result. *)
Definition differs (e : extracted) (missing : str) : bool :=
  match e with
  | CandidateText v => negb (eq_str v missing)
  | Unparsable | NoCandidates => true
  end.

(** What follows [session.post] in the two non-streaming operations. *)
Definition read_answer (message : response -> http_message) (missing : str)
    (start_time end_time : Q) (p : posted) : snapshot :=
  match p with
  | PostRaised => RequestFailed TransportError
  | PostReturned r =>
      if raises_for_status r then HttpFailure (message r)
      else
        match body r with
        | JSONDecodeError => RequestFailed ValueError
        | LoadRaised why => RequestFailed (raised_by why)
        | Loaded data =>
            match extract_text data missing with
            | Ok found =>
                Generated found (millis start_time end_time)
                  (differs found missing)
            | Raise e => RequestFailed e
            end
        end
  end.

(** The string literals the guards and defaults use, as code points. *)
Definition default_vision_question : str :=
  [35831; 35814; 32454; 20998; 26512; 36825; 24352; 22270; 29255]%N.
Definition no_generated_content : str :=
  [27809; 26377; 29983; 25104; 20869; 23481]%N.
Definition no_analysis_result : str :=
  [27809; 26377; 20998; 26512; 32467; 26524]%N.

(** [not s]: the string is empty. *)
Definition is_empty (s : str) : bool :=
  match s with
  | [] => true
  | _ :: _ => false
  end.

Definition text_part (question : str) : json :=
  JObj [(lit "text", JStr question)].

Definition image_part (image_base64 : str) : json :=
  JObj [(lit "inline_data",
         JObj [(lit "mime_type", JStr (lit "image/jpeg"));
               (lit "data", JStr image_base64)])].

Definition contents (parts : list json) : json :=
  JObj [(lit "contents", JList [JObj [(lit "parts", JList parts)]])].

Section Operations.
Variable self : BackendTester.
(** The backend behind [self.session.post]. *)
Variable post : request -> posted.

Definition test_standard_generation (question : str)
    (start_time end_time : Q) : call :=
  if is_empty (strip question) then
    {| outputs := [QuestionMissing]; posts := [] |}
  else
    let req := {| url := base_url self ++ lit "/api/gemini/generate";
                  payload := contents [text_part question];
                  streamed := false |} in
    {| outputs := [read_answer generation_http_message no_generated_content
                     start_time end_time (post req)];
       posts := [req] |}.

Definition test_stream_generation (question : str) (start_time : Q)
    : call :=
  if is_empty (strip question) then
    {| outputs := [QuestionMissing]; posts := [] |}
  else
    let req := {| url := base_url self ++ lit "/api/gemini/stream";
                  payload := JObj [(lit "prompt", JStr question);
                                   (lit "maxTokens", JInt 4096)];
                  streamed := true |} in
    {| outputs :=
         Connecting ::
         match post req with
         | PostRaised => [RequestFailed TransportError]
         | PostReturned r =>
             if raises_for_status r then
               [HttpFailure (stream_http_message r)]
             else
               let loop := stream_loop start_time (events r) in
               Connected :: yielded loop ++
               match how loop with
               | Excepted e => [RequestFailed e]
               | Exhausted | Returned => []
               end
         end;
       posts := [req] |}.

Definition test_vision_analysis (image : option pil_image)
    (question : str) (start_time end_time : Q) : call :=
  match image with
  | None => {| outputs := [ImageMissing]; posts := [] |}
  | Some image =>
      let question :=
        if is_empty (strip question) then default_vision_question
        else question in
      match jpeg_base64 image with
      | Raise e => {| outputs := [RequestFailed e]; posts := [] |}
      | Ok image_base64 =>
          let req :=
            {| url := base_url self ++ lit "/api/gemini/vision";
               payload := contents [text_part question;
                                    image_part image_base64];
               streamed := false |} in
          {| outputs := [read_answer vision_http_message
                           no_analysis_result start_time end_time
                           (post req)];
             posts := [req] |}
      end
  end.

Definition test_vision_stream_analysis (image : option pil_image)
    (question : str) (start_time : Q) : call :=
  match image with
  | None => {| outputs := [ImageMissing]; posts := [] |}
  | Some image =>
      let question :=
        if is_empty (strip question) then default_vision_question
        else question in
      match jpeg_base64 image with
      | Raise e => {| outputs := [RequestFailed e]; posts := [] |}
      | Ok image_base64 =>
          let req :=
            {| url := base_url self ++ lit "/api/gemini/vision-stream";
               payload := contents [text_part question;
                                    image_part image_base64];
               streamed := true |} in
          {| outputs :=
               Connecting ::
               match post req with
               | PostRaised => [RequestFailed TransportError]
               | PostReturned r =>
                   if raises_for_status r then
                     [HttpFailure (vision_http_message r)]
                   else
                     let loop := vision_loop start_time (events r) in
                     Connected :: yielded loop ++
                     match how loop with
                     | Excepted e => [RequestFailed e]
                     | Exhausted | Returned => []
                     end
               end;
             posts := [req] |}
      end
  end.
End Operations.

(* ================================================================== *)
(** ** Events and conditions the statements name *)

Definition event_of (data : json) (now : Q) : sse_event :=
  {| ev_data := Loaded data; ev_clock := now |}.

Definition content_event (delta : str) (now : Q) : sse_event :=
  event_of (JObj [(k_content, JStr delta)]) now.

Definition text_event (value : str) (now : Q) : sse_event :=
  event_of (JObj [(k_text, JStr value)]) now.

Definition done_event (now : Q) : sse_event :=
  event_of (JObj [(k_done, JBool true)]) now.

Definition final_text_event (value : str) (now : Q) : sse_event :=
  event_of (JObj [(k_finalText, JStr value)]) now.

(** The first guard of the vision loop: [finishReason] holds a true value
    or [status] is "completed". *)
Definition vision_finished (d : list (str * json)) : bool :=
  truthy (dict_get d k_finishReason) || eq_str (dict_get d k_status) s_completed.

(** The payloads at which the body of the text loop returns. *)
Definition stream_terminal (data : json) : bool :=
  match data with
  | JObj d => eq_True (dict_get d k_done) || dict_has d k_error
  | _ => false
  end.

(** The payloads at which the body of the vision loop returns. *)
Definition vision_terminal (data : json) : bool :=
  match data with
  | JObj d => vision_finished d || dict_has d k_error
  | _ => false
  end.

(** A streamed answer with other events. *)
Definition with_events (r : response) (evs : list sse_event) : response :=
  {| status_code := status_code r; text := text r; body := body r;
     events := evs |}.

(* ================================================================== *)
(** ** [BackendTester.__init__] *)

(** [s.lstrip('/')] *)
Fixpoint lstrip_slash (s : str) : str :=
  match s with
  | c :: s' => if N.eqb c 47 then lstrip_slash s' else s
  | [] => []
  end.

(** [s.rstrip('/')] *)
Definition rstrip_slash (s : str) : str := rev (lstrip_slash (rev s)).

(** [BackendTester(base_url)] *)
Definition BackendTester_init (url : str) : BackendTester :=
  {| base_url := rstrip_slash url |}.

(* ================================================================== *)
(** ** [test_health_check] and [test_api_validation] *)

(** [session.get(...)] returns an answer, raises
    [requests.exceptions.ConnectionError], or raises something else. *)
Inductive fetched : Type :=
| GetRefused
| GetRaised
| GetReturned (r : response).

(** What [except Exception as e] catches in the two checks: the
    [HTTPError] of [raise_for_status] or another exception. *)
Inductive failure : Type :=
| HttpStatusError (status : Z)
| Raised (e : exn).

(** The result texts of the two checks, by the values they interpolate. *)
Inductive report : Type :=
| HealthOk (status timestamp uptime : json) (api_configured : bool)
           (version active_connections max_connections : json)
| Unreachable (base : str)
| HealthFailed (f : failure)
| ValidationOk (valid configured : bool) (models message : json)
| ValidationRejected (valid configured : bool) (message : json)
| ValidationFailed (f : failure).

Definition s_unknown := lit "unknown".
Definition s_NA := lit "N/A".

Section Checks.
Variable self : BackendTester.
(** The backend behind [self.session.get]. *)
Variable get : str -> fetched.

Definition test_health_check : report :=
  match get (base_url self ++ lit "/api/health") with
  | GetRefused => Unreachable (base_url self)
  | GetRaised => HealthFailed (Raised TransportError)
  | GetReturned r =>
      if raises_for_status r then HealthFailed (HttpStatusError (status_code r))
      else
        match body r with
        | JSONDecodeError => HealthFailed (Raised ValueError)
        | LoadRaised why => HealthFailed (Raised (raised_by why))
        | Loaded data =>
            match
              status <- py_get data (lit "status") (JStr s_unknown) ;;
              timestamp <- py_get data (lit "timestamp") (JStr s_NA) ;;
              uptime <- py_get data (lit "uptime") (JStr s_NA) ;;
              api <- py_get data (lit "apiConfigured") JNull ;;
              version <- py_get data (lit "version") (JStr s_NA) ;;
              active <- py_get data (lit "activeConnections") (JStr s_NA) ;;
              most <- py_get data (lit "maxConnections") (JStr s_NA) ;;
              Ok (HealthOk status timestamp uptime (truthy api) version
                    active most)
            with
            | Ok result => result
            | Raise e => HealthFailed (Raised e)
            end
        end
  end.

Definition test_api_validation : report :=
  match get (base_url self ++ lit "/api/validate") with
  | GetRefused | GetRaised => ValidationFailed (Raised TransportError)
  | GetReturned r =>
      match body r with
      | JSONDecodeError => ValidationFailed (Raised ValueError)
      | LoadRaised why => ValidationFailed (Raised (raised_by why))
      | Loaded data =>
          match
            (if (status_code r =? 200)%Z then
               valid <- py_get data (lit "valid") JNull ;;
               configured <- py_get data (lit "configured") JNull ;;
               models <- py_get data (lit "models") (JInt 0) ;;
               message <- py_get data (lit "message") (JStr s_NA) ;;
               Ok (ValidationOk (truthy valid) (truthy configured) models
                     message)
             else
               valid <- py_get data (lit "valid") JNull ;;
               configured <- py_get data (lit "configured") JNull ;;
               message <- py_get data (lit "message") (JStr s_NA) ;;
               Ok (ValidationRejected (truthy valid) (truthy configured)
                     message))
          with
          | Ok result => result
          | Raise e => ValidationFailed (Raised e)
          end
      end
  end.
End Checks.

(* ================================================================== *)
(** ** [create_interface]: which tester a button reaches *)

(** The module global [tester], which [update_server_url] rebinds and the
    two streaming wrappers read when they run, and the instance whose bound
    methods [create_interface] handed to the other buttons. *)
Record interface : Type := {
  tester : BackendTester;
  bound : BackendTester
}.

Definition create_interface (global : BackendTester) : interface :=
  {| tester := global; bound := global |}.

(** [update_server_url(url)]: the interface afterwards and the address the
    status line shows. *)
Definition update_server_url (address : str) (ui : interface)
    : interface * str :=
  ({| tester := BackendTester_init address; bound := bound ui |}, address).

Definition health_click (ui : interface) (get : str -> fetched) : report :=
  test_health_check (bound ui) get.

Definition validate_click (ui : interface) (get : str -> fetched) : report :=
  test_api_validation (bound ui) get.

Definition standard_click (ui : interface) (post : request -> posted)
    (question : str) (start_time end_time : Q) : call :=
  test_standard_generation (bound ui) post question start_time end_time.

Definition vision_click (ui : interface) (post : request -> posted)
    (image : option pil_image) (question : str) (start_time end_time : Q)
    : call :=
  test_vision_analysis (bound ui) post image question start_time end_time.

Definition start_stream_test (ui : interface) (post : request -> posted)
    (question : str) (start_time : Q) : call :=
  test_stream_generation (tester ui) post question start_time.

Definition start_vision_stream_test (ui : interface)
    (post : request -> posted) (image : option pil_image) (question : str)
    (start_time : Q) : call :=
  test_vision_stream_analysis (tester ui) post image question start_time.

(* ================================================================== *)
(** ** What a snapshot shows *)

Definition k_candidates := lit "candidates".

Definition completed_event (now : Q) : sse_event :=
  event_of (JObj [(k_status, JStr s_completed)]) now.

Definition is_string (v : json) : bool :=
  match v with
  | JStr _ => true
  | _ => false
  end.

Definition is_object (data : json) : bool :=
  match data with
  | JObj _ => true
  | _ => false
  end.

(** The chunk number a snapshot displays, if it displays one. *)
Definition chunk_number (s : snapshot) : option nat :=
  match s with
  | StreamDone _ _ c _ _ | StreamDelta _ _ _ c _ _ | StreamLegacy _ _ c
  | VisionDone _ _ c _ _ | VisionDelta _ _ _ c _ _
  | VisionNearFinal _ _ _ c _ _ => Some c
  | _ => None
  end.

Definition chunk_numbers (snaps : list snapshot) : list nat :=
  flat_map (fun s => match chunk_number s with Some c => [c] | None => [] end)
    snaps.

(** The accumulated text a snapshot displays, if it displays one. *)
Definition shown_text (s : snapshot) : option json :=
  match s with
  | StreamDone acc _ _ _ _ | StreamDelta _ acc _ _ _ _
  | StreamLegacy acc _ _ => Some acc
  | VisionDone acc _ _ _ _ | VisionDelta _ acc _ _ _ _
  | VisionNearFinal _ acc _ _ _ _ => Some (JStr acc)
  | _ => None
  end.

(** The accumulated text on display after a list of snapshots, [initial]
    when none of them shows one. *)
Definition latest_text (initial : json) (snaps : list snapshot) : json :=
  fold_left (fun acc s => match shown_text s with Some x => x | None => acc end)
    snaps initial.

(* ================================================================== *)
(** * Properties *)

(** ** Strings and lookups *)

Lemma str_eqb_eq (a b : str) : str_eqb a b = true <-> a = b.
Proof.
  revert b; induction a as [|x a IH]; intros [|y b]; simpl;
    try (split; [discriminate | discriminate]); try tauto.
  rewrite andb_true_iff, N.eqb_eq, IH.
  split; [intros [-> ->]; reflexivity | intros H; inversion H; auto].
Qed.

Lemma startswith_app (p s : str) : startswith (p ++ s) p = true.
Proof.
  induction p as [|x p IH]; simpl; [reflexivity|].
  now rewrite N.eqb_refl, IH.
Qed.

Lemma contains_startswith (s sub : str) :
  startswith s sub = true -> contains s sub = true.
Proof. destruct s; cbn [contains]; intros ->; reflexivity. Qed.

(** A string contains each of its trailing runs. *)
Lemma contains_suffix (p sub : str) : contains (p ++ sub) sub = true.
Proof.
  induction p as [|x p IH]; simpl.
  - apply contains_startswith.
    rewrite <- (app_nil_r sub) at 1. apply startswith_app.
  - rewrite IH. apply orb_true_r.
Qed.

(** ** The loop *)

Lemma emit_None {S} (r : run S) : emit None r = r.
Proof. destruct r; reflexivity. Qed.

Section LoopFacts.
Context {S : Type}.
Variable step : S -> sse_event -> outcome S.

(** Events after the one at which the body stops change neither what is
    yielded nor how the loop ends. *)
Lemma stops_at (P : sse_event -> Prop)
    (stops : forall st ev, P ev ->
             match step st ev with Continue _ _ => False | _ => True end)
    (pre : list sse_event) : forall st ev rest,
  P ev ->
  yielded (for_events step st (pre ++ ev :: rest))
    = yielded (for_events step st (pre ++ [ev]))
  /\ how (for_events step st (pre ++ ev :: rest))
    = how (for_events step st (pre ++ [ev]))
  /\ final (for_events step st (pre ++ ev :: rest))
    = final (for_events step st (pre ++ [ev]))
  /\ unread (for_events step st (pre ++ ev :: rest))
    = unread (for_events step st (pre ++ [ev])) ++ rest
  /\ how (for_events step st (pre ++ ev :: rest)) <> Exhausted.
Proof.
  induction pre as [|e0 pre IH]; intros st ev rest HP; simpl.
  - specialize (stops st ev HP).
    destruct (step st ev); [contradiction | |]; simpl;
      repeat split; discriminate.
  - destruct (step st e0) as [st' out|st' out|st' e]; simpl.
    + destruct (IH st' ev rest HP) as (Hy & Hh & Hf & Hu & Hn).
      destruct out; cbn [emit yielded how final unread];
        rewrite ?Hy, ?Hf; repeat split; assumption.
    + repeat split; try discriminate. now rewrite <- app_assoc.
    + repeat split; try discriminate. now rewrite <- app_assoc.
Qed.
End LoopFacts.

(** ** Text session: increments are concatenated *)

Lemma stream_step_content start s n d t :
  d <> [] ->
  stream_step start {| accumulated_text := JStr s; chunk_count := n |}
    (content_event d t)
  = Continue {| accumulated_text := JStr (s ++ d); chunk_count := S n |}
      (Some (StreamDelta (JStr d) (JStr (s ++ d)) (millis start t) (S n)
               (List.length (s ++ d)) (List.length d))).
Proof.
  intros Hd. destruct d as [|c d]; [congruence|]. reflexivity.
Qed.

Lemma stream_step_done start s n t :
  stream_step start {| accumulated_text := JStr s; chunk_count := n |}
    (done_event t)
  = Finished {| accumulated_text := JStr s; chunk_count := S n |}
      (StreamDone (JStr s) (millis start t) (S n)
         (Qdiv (millis start t) (inject_Z (Z.of_nat (S n))))
         (List.length s)).
Proof. reflexivity. Qed.

Lemma stream_content_run start (ds : list (str * Q)) t : forall s n,
  Forall (fun d => fst d <> []) ds ->
  let r := for_events (stream_step start)
             {| accumulated_text := JStr s; chunk_count := n |}
             (map (fun d => content_event (fst d) (snd d)) ds
              ++ [done_event t]) in
  let whole := s ++ List.concat (map fst ds) in
  let chunks := S (n + List.length ds) in
  how r = Returned /\ unread r = []
  /\ final r = {| accumulated_text := JStr whole; chunk_count := chunks |}
  /\ exists before,
       List.length before = List.length ds
       /\ yielded r
          = before ++ [StreamDone (JStr whole) (millis start t) chunks
                         (Qdiv (millis start t)
                            (inject_Z (Z.of_nat chunks)))
                         (List.length whole)].
Proof.
  induction ds as [|[d u] ds IH]; intros s n Hne; cbv zeta.
  - cbn [map app List.concat for_events]. rewrite stream_step_done.
    cbn [how unread final yielded List.length]. rewrite app_nil_r, Nat.add_0_r.
    repeat split. exists []. split; reflexivity.
  - inversion Hne as [|? ? Hd Hds]; subst. cbn [fst snd] in Hd.
    cbn [map app List.concat for_events fst snd].
    rewrite stream_step_content by assumption.
    destruct (IH (s ++ d) (S n) Hds) as (Hh & Hu & Hf & before & Hl & Hy).
    cbv zeta in Hh, Hu, Hf, Hy.
    unfold emit. cbn [how unread final yielded List.length].
    rewrite <- app_assoc in Hf, Hy.
    replace (S (n + S (List.length ds))) with (S (S n + List.length ds)) by lia.
    repeat split; try assumption.
    exists (StreamDelta (JStr d) (JStr (s ++ d)) (millis start u) (S n)
              (List.length (s ++ d)) (List.length d) :: before).
    split; [simpl; now rewrite Hl|]. rewrite Hy. reflexivity.
Qed.

(** C1. In [test_stream_generation], a run of events that each carry only a
    non-empty [content] string, closed by a [done: true] event, ends by
    returning after one last snapshot, the final one; that snapshot reports
    the concatenation of the increments in arrival order as accumulated
    text and the number of events, the closing one included, as chunk
    count.  For "Hello ", "world", done the text is "Hello world" and the
    count is 3. *)
Theorem stream_content_concatenates (start : Q) (ds : list (str * Q)) (t : Q) :
  Forall (fun d => fst d <> []) ds ->
  let r := stream_loop start
             (map (fun d => content_event (fst d) (snd d)) ds
              ++ [done_event t]) in
  let whole := List.concat (map fst ds) in
  (how r = Returned
   /\ accumulated_text (final r) = JStr whole
   /\ chunk_count (final r) = S (List.length ds)
   /\ exists before per_chunk,
        List.length before = List.length ds
        /\ yielded r
           = before ++ [StreamDone (JStr whole) (millis start t)
                          (S (List.length ds)) per_chunk
                          (List.length whole)])
  /\ exists first second per_chunk,
       yielded (stream_loop start
                  [content_event (lit "Hello ") t;
                   content_event (lit "world") t;
                   done_event t])
       = [first; second;
          StreamDone (JStr (lit "Hello world")) (millis start t) 3
            per_chunk 11].
Proof.
  intros Hne. split.
  - destruct (stream_content_run start ds t [] 0 Hne)
      as (Hh & _ & Hf & before & Hl & Hy).
    cbv zeta in *. unfold stream_loop, stream_start.
    cbn [app] in Hf, Hy. rewrite Hf. cbn [accumulated_text chunk_count].
    repeat split; try assumption.
    exists before. eexists. split; [exact Hl|]. rewrite Hy. reflexivity.
  - do 3 eexists. reflexivity.
Qed.

Lemma stream_content_concatenates_witness :
  let ds := [(lit "Hello ", inject_Z 1); (lit "world", inject_Z 2)] in
  let r := stream_loop (inject_Z 0)
             (map (fun d => content_event (fst d) (snd d)) ds
              ++ [done_event (inject_Z 3)]) in
  Forall (fun d : str * Q => fst d <> []) ds
  /\ how r = Returned
  /\ accumulated_text (final r) = JStr (lit "Hello world")
  /\ chunk_count (final r) = 3.
Proof.
  cbv zeta.
  assert (Hne : Forall (fun d : str * Q => fst d <> [])
                  [(lit "Hello ", inject_Z 1); (lit "world", inject_Z 2)])
    by (repeat constructor; discriminate).
  split; [exact Hne|].
  destruct (proj1 (stream_content_concatenates (inject_Z 0) _ (inject_Z 3)
                     Hne)) as (Hh & Ha & Hc & _).
  split; [exact Hh|]. split; [exact Ha | exact Hc].
Defined.

(** ** The chunk counter *)

Ltac break_match :=
  repeat match goal with
         | |- context [match ?x with _ => _ end] => destruct x eqn:?; cbn
         end.

Lemma stream_step_counts start st ev :
  chunk_count (state_of (stream_step start st ev)) = S (chunk_count st).
Proof.
  unfold stream_step. destruct (ev_data ev) as [|data|why]; [reflexivity| |reflexivity].
  unfold stream_dispatch, bind. break_match; reflexivity.
Qed.

Lemma vision_step_counts start st ev :
  v_chunk_count (state_of (vision_step start st ev)) = S (v_chunk_count st).
Proof.
  unfold vision_step. destruct (ev_data ev) as [|data|why]; [reflexivity| |reflexivity].
  unfold vision_dispatch, bind. break_match; reflexivity.
Qed.

Section Counting.
Context {S : Type}.
Variable step : S -> sse_event -> outcome S.
Variable count : S -> nat.
Hypothesis step_counts :
  forall st ev, count (state_of (step st ev)) = Datatypes.S (count st).

(** The counter moves by the number of events pulled from the iterator. *)
Lemma loop_counts (events : list sse_event) : forall st,
  exists pulled,
    events = pulled ++ unread (for_events step st events)
    /\ count (final (for_events step st events))
       = count st + List.length pulled.
Proof.
  induction events as [|ev rest IH]; intros st; cbn [for_events].
  - exists []. split; [reflexivity | cbn; lia].
  - pose proof (step_counts st ev) as Hc.
    destruct (step st ev) as [st' out|st' out|st' e]; cbn [state_of] in Hc.
    + destruct (IH st') as (pulled & Hp & Hn). exists (ev :: pulled).
      unfold emit; cbn [unread final]. split.
      * cbn. now rewrite <- Hp.
      * rewrite Hn, Hc. cbn. lia.
    + exists [ev]. cbn. split; [reflexivity | lia].
    + exists [ev]. cbn. split; [reflexivity | lia].
Qed.
End Counting.

(** C2. In both loops the counter grows by exactly one for each event
    handled, whether its payload decodes or not and whatever branch it
    takes; so at the end of a run it equals the number of events pulled
    from the iterator. *)
Theorem chunk_count_counts_events (start : Q) (events : list sse_event) :
  (forall st ev,
     chunk_count (state_of (stream_step start st ev)) = S (chunk_count st))
  /\ (forall st ev,
        v_chunk_count (state_of (vision_step start st ev))
        = S (v_chunk_count st))
  /\ (exists pulled,
        events = pulled ++ unread (stream_loop start events)
        /\ chunk_count (final (stream_loop start events))
           = List.length pulled)
  /\ (exists pulled,
        events = pulled ++ unread (vision_loop start events)
        /\ v_chunk_count (final (vision_loop start events))
           = List.length pulled).
Proof.
  split; [intros; apply stream_step_counts|].
  split; [intros; apply vision_step_counts|].
  split.
  - destruct (loop_counts (stream_step start) chunk_count
                (stream_step_counts start) events stream_start)
      as (pulled & Hp & Hn).
    exists pulled. split; [exact Hp | exact Hn].
  - destruct (loop_counts (vision_step start) v_chunk_count
                (vision_step_counts start) events vision_start)
      as (pulled & Hp & Hn).
    exists pulled. split; [exact Hp | exact Hn].
Qed.

(** ** Growth of the accumulated text *)

Lemma str_iadd_extends acc delta acc' :
  str_iadd acc delta = Ok acc' -> exists d, acc' = acc ++ d.
Proof.
  destruct delta; cbn; intros H; inversion H. eexists; reflexivity.
Qed.

Lemma vision_step_extends start st ev :
  exists d,
    v_accumulated_text (state_of (vision_step start st ev))
    = v_accumulated_text st ++ d.
Proof.
  assert (Hsame : exists d,
            v_accumulated_text st = v_accumulated_text st ++ d)
    by (exists []; now rewrite app_nil_r).
  unfold vision_step. destruct (ev_data ev) as [|data|why]; [exact Hsame| |exact Hsame].
  unfold vision_dispatch. destruct data; try exact Hsame.
  destruct (vision_finished fields) eqn:Hfin; unfold vision_finished in Hfin;
    rewrite Hfin; [exact Hsame|].
  destruct (dict_has fields k_error); [exact Hsame|].
  destruct (dict_has fields k_text).
  - destruct (str_iadd _ (dict_get fields k_text)) as [acc|e] eqn:Hadd;
      [|exact Hsame].
    apply str_iadd_extends in Hadd.
    destruct (py_len (dict_get fields k_text)); exact Hadd.
  - destruct (dict_has fields k_finalText); [|exact Hsame].
    match goal with
    | |- context [match ?x with Ok _ => _ | Raise _ => _ end] =>
        destruct x as [acc|e] eqn:Hacc
    end; [|exact Hsame].
    assert (Hext : exists d, acc = v_accumulated_text (v_count_chunk st) ++ d).
    { destruct (truthy (dict_get fields k_finalText)).
      - unfold bind in Hacc.
        destruct (str_in _ _) as [present|e]; [|discriminate].
        destruct (negb present).
        + now apply str_iadd_extends in Hacc.
        + inversion Hacc; subst. exists []; now rewrite app_nil_r.
      - inversion Hacc; subst. exists []; now rewrite app_nil_r. }
    match goal with
    | |- context [match ?x with Ok _ => _ | Raise _ => _ end] => destruct x
    end; exact Hext.
Qed.

Lemma vision_loop_extends start (events : list sse_event) : forall st,
  exists d,
    v_accumulated_text (final (for_events (vision_step start) st events))
    = v_accumulated_text st ++ d.
Proof.
  induction events as [|ev rest IH]; intros st; cbn [for_events].
  - exists []; cbn; now rewrite app_nil_r.
  - destruct (vision_step_extends start st ev) as [d Hd].
    destruct (vision_step start st ev) as [st' out|st' out|st' e];
      cbn [state_of] in Hd; unfold emit; cbn [final];
      try (exists d; exact Hd).
    destruct (IH st') as [d' Hd']. exists (d ++ d').
    now rewrite Hd', Hd, app_assoc.
Qed.

Lemma stream_step_extends_or_replaces start st ev s :
  accumulated_text st = JStr s ->
  (exists d,
     accumulated_text (state_of (stream_step start st ev)) = JStr (s ++ d))
  \/ (exists d full,
        ev_data ev = Loaded (JObj d)
        /\ lookup k_text d = Some full
        /\ stream_step start st ev
           = Continue {| accumulated_text := full;
                         chunk_count := S (chunk_count st) |}
               (Some (StreamLegacy full (millis start (ev_clock ev))
                        (S (chunk_count st))))).
Proof.
  intros Hs.
  assert (Hsame : exists d, accumulated_text st = JStr (s ++ d))
    by (exists []; now rewrite app_nil_r).
  unfold stream_step. destruct (ev_data ev) as [|data|why]; [left; exact Hsame| |left; exact Hsame].
  unfold stream_dispatch. destruct data; try (left; exact Hsame).
  destruct (eq_True (dict_get fields k_done)).
  { left. destruct (_ <- _ ;; _); exact Hsame. }
  destruct (dict_has fields k_error); [left; exact Hsame|].
  destruct (dict_has fields k_content && truthy (dict_get fields k_content)).
  { left. cbn [count_chunk accumulated_text chunk_count]. rewrite Hs.
    destruct (dict_get fields k_content); cbn [py_iadd state_of];
      try exact Hsame.
    destruct (_ <- _ ;; _); cbn [state_of accumulated_text];
      eexists; reflexivity. }
  unfold dict_has, dict_get.
  destruct (lookup k_text fields) as [full|] eqn:Htext;
    [|left; exact Hsame].
  right. exists fields, full. repeat split. exact Htext.
Qed.

(** C3, as stated, fails in the text session: after "Hello" has been
    accumulated, an event [{"text": "Hi"}] leaves "Hi", which is shorter
    and does not start with "Hello". *)
Lemma stream_text_event_shrinks :
  let st := final (stream_loop (inject_Z 0)
                     [content_event (lit "Hello") (inject_Z 0)]) in
  let st' := state_of (stream_step (inject_Z 0) st
                         (text_event (lit "Hi") (inject_Z 0))) in
  accumulated_text st = JStr (lit "Hello")
  /\ accumulated_text st' = JStr (lit "Hi")
  /\ List.length (lit "Hi") < List.length (lit "Hello")
  /\ ~ (exists d, lit "Hi" = lit "Hello" ++ d).
Proof.
  cbv zeta. repeat split.
  - cbn. lia.
  - intros [d Hd]. cbn in Hd. discriminate.
Qed.

(** C3, amended.  In the vision session the accumulated text never shrinks:
    after any event, and after any run of events, it is the text before
    followed by a possibly empty extension.  In the text session the same
    holds for every event but one handled by the legacy [text] branch,
    which binds the accumulated text to the value of the field. *)
Theorem accumulated_text_grows (start : Q) :
  (forall st ev,
     exists d,
       v_accumulated_text (state_of (vision_step start st ev))
       = v_accumulated_text st ++ d)
  /\ (forall st events,
        exists d,
          v_accumulated_text (final (for_events (vision_step start) st events))
          = v_accumulated_text st ++ d)
  /\ (forall st ev s,
        accumulated_text st = JStr s ->
        (exists d,
           accumulated_text (state_of (stream_step start st ev))
           = JStr (s ++ d))
        \/ (exists d full,
              ev_data ev = Loaded (JObj d)
              /\ lookup k_text d = Some full
              /\ stream_step start st ev
                 = Continue {| accumulated_text := full;
                               chunk_count := S (chunk_count st) |}
                     (Some (StreamLegacy full (millis start (ev_clock ev))
                              (S (chunk_count st)))))).
Proof.
  split; [intros; apply vision_step_extends|].
  split; [intros; apply vision_loop_extends|].
  intros st ev s Hs. now apply stream_step_extends_or_replaces.
Qed.

Lemma accumulated_text_grows_witness :
  accumulated_text stream_start = JStr []
  /\ ((exists d,
         accumulated_text
           (state_of (stream_step (inject_Z 0) stream_start
                        (content_event (lit "Hello") (inject_Z 0))))
         = JStr ([] ++ d))
      \/ (exists d full,
            ev_data (content_event (lit "Hello") (inject_Z 0))
            = Loaded (JObj d)
            /\ lookup k_text d = Some full
            /\ stream_step (inject_Z 0) stream_start
                 (content_event (lit "Hello") (inject_Z 0))
               = Continue {| accumulated_text := full;
                             chunk_count := S (chunk_count stream_start) |}
                   (Some (StreamLegacy full
                            (millis (inject_Z 0)
                               (ev_clock (content_event (lit "Hello")
                                            (inject_Z 0))))
                            (S (chunk_count stream_start)))))).
Proof.
  split; [reflexivity|].
  exact (proj2 (proj2 (accumulated_text_grows (inject_Z 0)))
           stream_start (content_event (lit "Hello") (inject_Z 0)) []
           eq_refl).
Defined.

(** ** Terminal events *)

Lemma stream_terminal_stops start st ev data :
  ev_data ev = Loaded data -> stream_terminal data = true ->
  match stream_step start st ev with
  | Continue _ _ => False
  | _ => True
  end.
Proof.
  intros Hev Hterm. unfold stream_step. rewrite Hev.
  destruct data; try discriminate. cbn [stream_terminal] in Hterm.
  unfold stream_dispatch.
  destruct (eq_True (dict_get fields k_done)).
  - destruct (_ <- _ ;; _); exact I.
  - cbn [orb] in Hterm. rewrite Hterm. exact I.
Qed.

Lemma vision_terminal_stops start st ev data :
  ev_data ev = Loaded data -> vision_terminal data = true ->
  match vision_step start st ev with
  | Continue _ _ => False
  | _ => True
  end.
Proof.
  intros Hev Hterm. unfold vision_step. rewrite Hev.
  destruct data; try discriminate. cbn [vision_terminal] in Hterm.
  unfold vision_dispatch, vision_finished in *.
  destruct (truthy (dict_get fields k_finishReason)
            || eq_str (dict_get fields k_status) s_completed).
  - exact I.
  - cbn [orb] in Hterm. rewrite Hterm. exact I.
Qed.

(** C4, as stated, fails in the vision session: an event in which the
    [finishReason] key is present with the value null is not terminal, and
    the [text] event after it still yields a snapshot. *)
Lemma finishReason_null_does_not_stop :
  let ev := event_of (JObj [(k_finishReason, JNull)]) (inject_Z 0) in
  let next := text_event (lit "A") (inject_Z 0) in
  dict_has [(k_finishReason, JNull)] k_finishReason = true
  /\ yielded (vision_loop (inject_Z 0) [ev]) = []
  /\ yielded (vision_loop (inject_Z 0) [ev; next])
     = [VisionDelta (JStr (lit "A")) (lit "A")
          (millis (inject_Z 0) (inject_Z 0)) 2 1 1].
Proof. cbv zeta. repeat split. Qed.

(** C4, amended.  Once the loop has handled an event that decodes to an
    object in which [done] equals [True] or [error] is a key (text
    session), or in which [finishReason] holds a true value, [status] is
    "completed" or [error] is a key (vision session), the events after it
    are never pulled: they stay unread, the run yields what it yields when
    the input ends with that event, and the whole call gives the same
    outputs. *)
Theorem no_snapshot_after_terminal (start : Q) (pre : list sse_event)
    (ev : sse_event) (data : json) (rest : list sse_event) :
  ev_data ev = Loaded data ->
  (stream_terminal data = true ->
   yielded (stream_loop start (pre ++ ev :: rest))
     = yielded (stream_loop start (pre ++ [ev]))
   /\ how (stream_loop start (pre ++ ev :: rest)) <> Exhausted
   /\ unread (stream_loop start (pre ++ ev :: rest))
      = unread (stream_loop start (pre ++ [ev])) ++ rest
   /\ forall self question r,
        outputs (test_stream_generation self
                   (fun _ => PostReturned (with_events r (pre ++ ev :: rest)))
                   question start)
        = outputs (test_stream_generation self
                     (fun _ => PostReturned (with_events r (pre ++ [ev])))
                     question start))
  /\ (vision_terminal data = true ->
      yielded (vision_loop start (pre ++ ev :: rest))
        = yielded (vision_loop start (pre ++ [ev]))
      /\ how (vision_loop start (pre ++ ev :: rest)) <> Exhausted
      /\ unread (vision_loop start (pre ++ ev :: rest))
         = unread (vision_loop start (pre ++ [ev])) ++ rest
      /\ forall self image question r,
           outputs (test_vision_stream_analysis self
                      (fun _ => PostReturned
                                  (with_events r (pre ++ ev :: rest)))
                      image question start)
           = outputs (test_vision_stream_analysis self
                        (fun _ => PostReturned (with_events r (pre ++ [ev])))
                        image question start)).
Proof.
  intros Hev. split; intros Hterm.
  - destruct (stops_at (stream_step start)
                (fun e => ev_data e = Loaded data)
                (fun st e He => stream_terminal_stops start st e data He Hterm)
                pre stream_start ev rest Hev) as (Hy & Hh & _ & Hu & Hn).
    fold (stream_loop start) in Hy, Hh, Hu, Hn.
    repeat split; try assumption.
    intros self question r. unfold test_stream_generation.
    destruct (is_empty (strip question)); [reflexivity|].
    cbn [outputs with_events events raises_for_status status_code].
    now rewrite Hy, Hh.
  - destruct (stops_at (vision_step start)
                (fun e => ev_data e = Loaded data)
                (fun st e He => vision_terminal_stops start st e data He Hterm)
                pre vision_start ev rest Hev) as (Hy & Hh & _ & Hu & Hn).
    fold (vision_loop start) in Hy, Hh, Hu, Hn.
    repeat split; try assumption.
    intros self image question r. unfold test_vision_stream_analysis.
    destruct image as [image|]; [|reflexivity].
    destruct (jpeg_base64 image); [|reflexivity].
    cbn [outputs with_events events raises_for_status status_code].
    now rewrite Hy, Hh.
Qed.

Lemma no_snapshot_after_terminal_witness :
  let failure := JObj [(k_error, JStr (lit "boom"))] in
  let ev := event_of failure (inject_Z 0) in
  let late := [content_event (lit "late") (inject_Z 0);
               text_event (lit "later") (inject_Z 0)] in
  ev_data ev = Loaded failure
  /\ stream_terminal failure = true
  /\ vision_terminal failure = true
  /\ yielded (stream_loop (inject_Z 0) ([] ++ ev :: late))
     = yielded (stream_loop (inject_Z 0) ([] ++ [ev]))
  /\ yielded (vision_loop (inject_Z 0) ([] ++ ev :: late))
     = yielded (vision_loop (inject_Z 0) ([] ++ [ev])).
Proof.
  cbv zeta.
  pose proof (no_snapshot_after_terminal (inject_Z 0) []
                (event_of (JObj [(k_error, JStr (lit "boom"))]) (inject_Z 0))
                (JObj [(k_error, JStr (lit "boom"))])
                [content_event (lit "late") (inject_Z 0);
                 text_event (lit "later") (inject_Z 0)] eq_refl)
    as [Hstream Hvision].
  split; [reflexivity|]. split; [reflexivity|]. split; [reflexivity|].
  split.
  - exact (proj1 (Hstream eq_refl)).
  - exact (proj1 (Hvision eq_refl)).
Defined.

(** ** The [text] field *)

(** C5. An event with a [text] field that no earlier branch takes is
    handled differently by the two loops.  In the text session (no [done]
    equal to [True], no [error] key, no [content] holding a true value) the
    accumulated text becomes the value of the field, whatever was there.
    In the vision session (not finished, no [error] key) a string value is
    appended to the accumulated text.  Both yield an in-progress
    snapshot. *)
Theorem text_field_replaces_or_appends (start : Q) (ev : sse_event)
    (d : list (str * json)) :
  ev_data ev = Loaded (JObj d) ->
  (forall st full,
     lookup k_text d = Some full ->
     eq_True (dict_get d k_done) = false ->
     dict_has d k_error = false ->
     dict_has d k_content && truthy (dict_get d k_content) = false ->
     stream_step start st ev
     = Continue {| accumulated_text := full;
                   chunk_count := S (chunk_count st) |}
         (Some (StreamLegacy full (millis start (ev_clock ev))
                  (S (chunk_count st)))))
  /\ (forall st delta,
        lookup k_text d = Some (JStr delta) ->
        vision_finished d = false ->
        dict_has d k_error = false ->
        vision_step start st ev
        = Continue {| v_accumulated_text := v_accumulated_text st ++ delta;
                      v_chunk_count := S (v_chunk_count st) |}
            (Some (VisionDelta (JStr delta) (v_accumulated_text st ++ delta)
                     (millis start (ev_clock ev)) (S (v_chunk_count st))
                     (List.length (v_accumulated_text st ++ delta))
                     (List.length delta)))).
Proof.
  intros Hev. split.
  - intros st full Htext Hdone Herr Hcontent.
    unfold stream_step, stream_dispatch. rewrite Hev, Hdone, Herr, Hcontent.
    unfold dict_has, dict_get. rewrite Htext. reflexivity.
  - intros st delta Htext Hfin Herr.
    unfold vision_step, vision_dispatch. rewrite Hev.
    unfold vision_finished in Hfin. rewrite Hfin, Herr.
    unfold dict_has, dict_get. rewrite Htext. reflexivity.
Qed.

Lemma text_field_replaces_or_appends_witness :
  let d := [(k_text, JStr (lit "B"))] in
  let ev := text_event (lit "B") (inject_Z 0) in
  let before := {| accumulated_text := JStr (lit "A"); chunk_count := 1 |} in
  let v_before := {| v_accumulated_text := lit "A"; v_chunk_count := 1 |} in
  ev_data ev = Loaded (JObj d)
  /\ lookup k_text d = Some (JStr (lit "B"))
  /\ eq_True (dict_get d k_done) = false
  /\ dict_has d k_error = false
  /\ dict_has d k_content && truthy (dict_get d k_content) = false
  /\ vision_finished d = false
  /\ accumulated_text (state_of (stream_step (inject_Z 0) before ev))
     = JStr (lit "B")
  /\ v_accumulated_text (state_of (vision_step (inject_Z 0) v_before ev))
     = lit "AB".
Proof.
  cbv zeta.
  pose proof (text_field_replaces_or_appends (inject_Z 0)
                (text_event (lit "B") (inject_Z 0))
                [(k_text, JStr (lit "B"))] eq_refl) as [Hstream Hvision].
  do 6 (split; [reflexivity|]). split.
  - rewrite (Hstream {| accumulated_text := JStr (lit "A"); chunk_count := 1 |}
               (JStr (lit "B")) eq_refl eq_refl eq_refl eq_refl).
    reflexivity.
  - rewrite (Hvision {| v_accumulated_text := lit "A"; v_chunk_count := 1 |}
               (lit "B") eq_refl eq_refl eq_refl).
    reflexivity.
Defined.

(** ** Payloads that do not decode *)

(** C6, as stated, fails: not every payload that cannot be decoded is
    skipped.  The loops catch [json.JSONDecodeError] only; on a payload
    nested so deep that [json.loads] raises [RecursionError] the exception
    leaves the loop, the call yields the generic failure message and ends,
    and the event after it is never read. *)
Lemma deep_payload_ends_session :
  let deep := {| ev_data := LoadRaised TooDeep; ev_clock := inject_Z 0 |} in
  let late := content_event (lit "late") (inject_Z 0) in
  let r := {| status_code := 200; text := []; body := JSONDecodeError;
              events := [content_event (lit "A") (inject_Z 0); deep; late] |} in
  stream_step (inject_Z 0)
    {| accumulated_text := JStr (lit "A"); chunk_count := 1 |} deep
  = Crashed {| accumulated_text := JStr (lit "A"); chunk_count := 2 |}
      RecursionError
  /\ vision_step (inject_Z 0)
       {| v_accumulated_text := lit "A"; v_chunk_count := 1 |} deep
     = Crashed {| v_accumulated_text := lit "A"; v_chunk_count := 2 |}
         RecursionError
  /\ how (stream_loop (inject_Z 0) (events r)) = Excepted RecursionError
  /\ unread (stream_loop (inject_Z 0) (events r)) = [late]
  /\ outputs (test_stream_generation
                {| base_url := lit "http://localhost:3001" |}
                (fun _ => PostReturned r) (lit "hi") (inject_Z 0))
     = [Connecting; Connected;
        StreamDelta (JStr (lit "A")) (JStr (lit "A"))
          (millis (inject_Z 0) (inject_Z 0)) 1 1 1;
        RequestFailed RecursionError].
Proof. cbv zeta. repeat split. Qed.

(** C6, amended.  An event whose payload [json.loads] rejects with a
    [JSONDecodeError] leaves both loops running with the accumulated text
    as it was: the body neither yields nor returns nor lets an exception
    out, only the counter moves, and the loop goes on with the next
    event. *)
Theorem malformed_event_is_skipped (start : Q) (ev : sse_event) :
  ev_data ev = JSONDecodeError ->
  (forall st,
     stream_step start st ev
     = Continue {| accumulated_text := accumulated_text st;
                   chunk_count := S (chunk_count st) |} None)
  /\ (forall st,
        vision_step start st ev
        = Continue {| v_accumulated_text := v_accumulated_text st;
                      v_chunk_count := S (v_chunk_count st) |} None)
  /\ (forall st rest,
        for_events (stream_step start) st (ev :: rest)
        = for_events (stream_step start) (count_chunk st) rest)
  /\ (forall st rest,
        for_events (vision_step start) st (ev :: rest)
        = for_events (vision_step start) (v_count_chunk st) rest).
Proof.
  intros Hev.
  assert (Hs : forall st, stream_step start st ev
                          = Continue (count_chunk st) None)
    by (intros st; unfold stream_step; now rewrite Hev).
  assert (Hv : forall st, vision_step start st ev
                          = Continue (v_count_chunk st) None)
    by (intros st; unfold vision_step; now rewrite Hev).
  repeat split; intros st; try apply Hs; try apply Hv; intros rest;
    cbn [for_events]; rewrite ?Hs, ?Hv; apply emit_None.
Qed.

Lemma malformed_event_is_skipped_witness :
  let bad := {| ev_data := JSONDecodeError; ev_clock := inject_Z 0 |} in
  ev_data bad = JSONDecodeError
  /\ final (stream_loop (inject_Z 0)
              [content_event (lit "A") (inject_Z 0); bad;
               content_event (lit "B") (inject_Z 0)])
     = {| accumulated_text := JStr (lit "AB"); chunk_count := 3 |}
  /\ stream_step (inject_Z 0)
       {| accumulated_text := JStr (lit "A"); chunk_count := 1 |} bad
     = Continue {| accumulated_text := JStr (lit "A"); chunk_count := 2 |}
         None.
Proof.
  cbv zeta. split; [reflexivity|]. split; [reflexivity|].
  exact (proj1 (malformed_event_is_skipped (inject_Z 0)
                  {| ev_data := JSONDecodeError; ev_clock := inject_Z 0 |}
                  eq_refl)
           {| accumulated_text := JStr (lit "A"); chunk_count := 1 |}).
Defined.

(** ** The end of a vision session *)

(** C7, as stated, fails: an event in which the [finishReason] key is
    present with an empty string is not terminal; nothing is yielded and
    the loop goes on to the end of the input. *)
Lemma empty_finishReason_not_terminal :
  let d := [(k_finishReason, JStr [])] in
  let ev := event_of (JObj d) (inject_Z 0) in
  dict_has d k_finishReason = true
  /\ vision_step (inject_Z 0) vision_start ev
     = Continue {| v_accumulated_text := []; v_chunk_count := 1 |} None
  /\ how (vision_loop (inject_Z 0) [ev]) = Exhausted.
Proof. cbv zeta. repeat split. Qed.

(** C7, amended.  In the vision loop every decoded object in which
    [finishReason] holds a true value (a non-empty string, for one), or in
    which [status] equals "completed", is terminal: the body yields the
    final snapshot with the elapsed time, the chunk count and the
    accumulated text, then returns, leaving the later events unread. *)
Theorem vision_finish_is_terminal (start : Q) (st : vision_session)
    (ev : sse_event) (d : list (str * json)) (rest : list sse_event) :
  ev_data ev = Loaded (JObj d) ->
  truthy (dict_get d k_finishReason)
  || eq_str (dict_get d k_status) s_completed = true ->
  let final_result :=
    VisionDone (v_accumulated_text st) (millis start (ev_clock ev))
      (S (v_chunk_count st)) (lookup k_finishReason d)
      (List.length (v_accumulated_text st)) in
  vision_step start st ev = Finished (v_count_chunk st) final_result
  /\ for_events (vision_step start) st (ev :: rest)
     = {| yielded := [final_result]; final := v_count_chunk st;
          how := Returned; unread := rest |}.
Proof.
  intros Hev Hfin final_result.
  assert (Hstep : vision_step start st ev
                  = Finished (v_count_chunk st) final_result).
  { unfold vision_step, vision_dispatch. rewrite Hev, Hfin. reflexivity. }
  split; [exact Hstep|]. cbn [for_events]. now rewrite Hstep.
Qed.

Lemma vision_finish_is_terminal_witness :
  let d := [(k_status, JStr s_completed)] in
  let ev := event_of (JObj d) (inject_Z 2) in
  let st := {| v_accumulated_text := lit "AB"; v_chunk_count := 2 |} in
  ev_data ev = Loaded (JObj d)
  /\ truthy (dict_get d k_finishReason)
     || eq_str (dict_get d k_status) s_completed = true
  /\ vision_step (inject_Z 0) st ev
     = Finished {| v_accumulated_text := lit "AB"; v_chunk_count := 3 |}
         (VisionDone (lit "AB") (millis (inject_Z 0) (inject_Z 2)) 3 None 2).
Proof.
  cbv zeta. split; [reflexivity|]. split; [reflexivity|].
  exact (proj1 (vision_finish_is_terminal (inject_Z 0)
                  {| v_accumulated_text := lit "AB"; v_chunk_count := 2 |}
                  (event_of (JObj [(k_status, JStr s_completed)]) (inject_Z 2))
                  [(k_status, JStr s_completed)] [] eq_refl eq_refl)).
Defined.

(** ** The [finalText] field *)

(** C8, as stated, fails: with "abc" accumulated, the [finalText] value
    "ab" is not empty and is not a trailing run of "abc", yet it is not
    appended, because it occurs inside "abc". *)
Lemma finalText_inner_run_not_appended :
  let st := final (vision_loop (inject_Z 0)
                     [text_event (lit "abc") (inject_Z 0)]) in
  let ev := final_text_event (lit "ab") (inject_Z 0) in
  v_accumulated_text st = lit "abc"
  /\ lit "ab" <> []
  /\ ~ (exists p, lit "abc" = p ++ lit "ab")
  /\ v_accumulated_text (state_of (vision_step (inject_Z 0) st ev))
     = lit "abc".
Proof.
  cbv zeta. split; [reflexivity|]. split; [discriminate|].
  split; [|reflexivity].
  intros [p Hp]. apply (f_equal (@rev codepoint)) in Hp.
  rewrite rev_app_distr in Hp. discriminate.
Qed.

(** C8, amended.  In the vision loop a [finalText] event that no earlier
    branch takes (not finished, no [error] key, no [text] key), with a
    string value, appends the value to the accumulated text if and only if
    the value is not empty and does not already occur in the accumulated
    text as a contiguous run, anywhere; in particular a value that is a
    trailing run of the accumulated text leaves it unchanged.  A near-final
    snapshot is yielded either way. *)
Theorem finalText_appended_unless_contained (start : Q) (st : vision_session)
    (ev : sse_event) (d : list (str * json)) (value : str) :
  ev_data ev = Loaded (JObj d) ->
  vision_terminal (JObj d) = false ->
  dict_has d k_text = false ->
  lookup k_finalText d = Some (JStr value) ->
  let acc := v_accumulated_text st in
  let acc' := if is_empty value || contains acc value
              then acc else acc ++ value in
  vision_step start st ev
  = Continue {| v_accumulated_text := acc';
                v_chunk_count := S (v_chunk_count st) |}
      (Some (VisionNearFinal (JStr value) acc' (millis start (ev_clock ev))
               (S (v_chunk_count st)) (List.length acc')
               (List.length value)))
  /\ (forall p, acc = p ++ value -> acc' = acc).
Proof.
  intros Hev Hterm Htext Hfinal acc acc'. split.
  - cbn [vision_terminal] in Hterm. apply orb_false_iff in Hterm.
    destruct Hterm as [Hfin Herr]. unfold vision_finished in Hfin.
    unfold vision_step, vision_dispatch. rewrite Hev, Hfin, Herr, Htext.
    unfold dict_has at 1. unfold dict_get. rewrite Hfinal.
    subst acc acc'. cbn [v_count_chunk v_accumulated_text v_chunk_count].
    destruct value as [|c value]; [reflexivity|].
    cbn [truthy str_in bind is_empty orb].
    destruct (contains (v_accumulated_text st) (c :: value)); reflexivity.
  - intros p Hp. subst acc'. rewrite Hp at 1.
    rewrite contains_suffix, orb_true_r. reflexivity.
Qed.

Lemma finalText_appended_unless_contained_witness :
  let d := [(k_finalText, JStr (lit "world"))] in
  let ev := final_text_event (lit "world") (inject_Z 0) in
  let st := {| v_accumulated_text := lit "Hello world"; v_chunk_count := 2 |} in
  ev_data ev = Loaded (JObj d)
  /\ vision_terminal (JObj d) = false
  /\ dict_has d k_text = false
  /\ lookup k_finalText d = Some (JStr (lit "world"))
  /\ v_accumulated_text (state_of (vision_step (inject_Z 0) st ev))
     = lit "Hello world".
Proof.
  cbv zeta. do 4 (split; [reflexivity|]).
  rewrite (proj1 (finalText_appended_unless_contained (inject_Z 0)
                    {| v_accumulated_text := lit "Hello world";
                       v_chunk_count := 2 |}
                    (final_text_event (lit "world") (inject_Z 0))
                    [(k_finalText, JStr (lit "world"))] (lit "world")
                    eq_refl eq_refl eq_refl eq_refl)).
  reflexivity.
Defined.

(** ** The average per chunk *)

Lemma py_len_raises v e : py_len v = Raise e -> e = TypeError.
Proof. destruct v; cbn; congruence. Qed.

Lemma py_iter_raises v e : py_iter v = Raise e -> e = TypeError.
Proof. destruct v; cbn; congruence. Qed.

Lemma number_add_raises a b e :
  number_add a b = Raise e -> e = OverflowError.
Proof.
  destruct a as [x|p], b as [y|q]; cbn [number_add]; try discriminate.
  - destruct (fits_float x); congruence.
  - destruct (fits_float y); congruence.
Qed.

Lemma py_iadd_raises acc delta e :
  py_iadd acc delta = Raise e -> e = TypeError \/ e = OverflowError.
Proof.
  assert (Hnum : forall a, match a, as_number delta with
                           | Some x, Some y => number_add x y
                           | _, _ => Raise TypeError
                           end = Raise e ->
                           e = TypeError \/ e = OverflowError).
  { intros a. destruct a as [x|]; [|left; congruence].
    destruct (as_number delta) as [y|]; [|left; congruence].
    intros H. right. now apply number_add_raises in H. }
  destruct acc; cbn [py_iadd]; try (left; congruence); try apply Hnum.
  - destruct delta; left; congruence.
  - unfold bind. destruct (py_iter delta) eqn:Hit; [discriminate|].
    intros H; inversion H; subst. left. now apply py_iter_raises in Hit.
Qed.

(** The division is a real hazard of the branch: entered with a counter at
    zero, it raises. *)
Lemma stream_dispatch_zero_chunks start now :
  stream_dispatch start now stream_start (JObj [(k_done, JBool true)])
  = Crashed stream_start ZeroDivisionError.
Proof. reflexivity. Qed.

Lemma stream_step_no_zero_division start st ev st' :
  stream_step start st ev <> Crashed st' ZeroDivisionError.
Proof.
  unfold stream_step. destruct (ev_data ev) as [|data|why];
    [discriminate| |destruct why; discriminate].
  unfold stream_dispatch. destruct data; try discriminate.
  destruct (eq_True (dict_get fields k_done)).
  { cbn [count_chunk chunk_count accumulated_text py_truediv bind].
    destruct (py_len (accumulated_text st)) as [n|e] eqn:Hlen;
      [discriminate|].
    apply py_len_raises in Hlen. subst e. discriminate. }
  destruct (dict_has fields k_error); [discriminate|].
  destruct (dict_has fields k_content && truthy (dict_get fields k_content)).
  { destruct (py_iadd _ _) as [acc|e] eqn:Hadd.
    - unfold bind. destruct (py_len acc) as [n|e] eqn:Hlen.
      + destruct (py_len (dict_get fields k_content)) as [m|e] eqn:Hd;
          [discriminate|].
        apply py_len_raises in Hd. subst e. discriminate.
      + apply py_len_raises in Hlen. subst e. discriminate.
    - apply py_iadd_raises in Hadd. destruct Hadd; subst e; discriminate. }
  destruct (dict_has fields k_text); discriminate.
Qed.

Lemma stream_run_no_zero_division start (events : list sse_event) :
  forall st,
    how (for_events (stream_step start) st events)
    <> Excepted ZeroDivisionError.
Proof.
  induction events as [|ev rest IH]; intros st; cbn [for_events];
    [discriminate|].
  pose proof (stream_step_no_zero_division start st ev) as Hstep.
  destruct (stream_step start st ev) as [st' out|st' out|st' e].
  - unfold emit; cbn [how]. apply IH.
  - discriminate.
  - cbn [how]. intros H. inversion H; subst. now apply (Hstep st').
Qed.

(** C9. In [test_stream_generation] the counter has been incremented when
    the body of the loop is entered, so in the branch of [done] the divisor
    of the average per chunk is at least 1: the division gives a value, no
    turn of the loop raises [ZeroDivisionError], and no run ends on one. *)
Theorem done_average_divisor_positive (start : Q) :
  (forall st, 1 <= chunk_count (count_chunk st))
  /\ (forall st now,
        py_truediv (millis start now) (chunk_count (count_chunk st))
        = Ok (Qdiv (millis start now)
                (inject_Z (Z.of_nat (S (chunk_count st))))))
  /\ (forall n now s,
        stream_dispatch start now
          (count_chunk {| accumulated_text := JStr s; chunk_count := n |})
          (JObj [(k_done, JBool true)])
        = Finished {| accumulated_text := JStr s; chunk_count := S n |}
            (StreamDone (JStr s) (millis start now) (S n)
               (Qdiv (millis start now) (inject_Z (Z.of_nat (S n))))
               (List.length s)))
  /\ (forall st ev st',
        stream_step start st ev <> Crashed st' ZeroDivisionError)
  /\ (forall events,
        how (stream_loop start events) <> Excepted ZeroDivisionError).
Proof.
  split; [intros st; cbn; lia|].
  split; [reflexivity|].
  split; [reflexivity|].
  split; [intros; apply stream_step_no_zero_division|].
  intros events. apply stream_run_no_zero_division.
Qed.

(** ** The guards of the four generation operations *)

Lemma default_vision_question_kept :
  is_empty (strip default_vision_question) = false.
Proof. reflexivity. Qed.

Lemma blank_is_empty q : strip q = [] -> is_empty (strip q) = true.
Proof. intros ->. reflexivity. Qed.

Lemma read_answer_not_question_missing message missing s e p :
  read_answer message missing s e p <> QuestionMissing.
Proof.
  unfold read_answer. destruct p as [|r]; [discriminate|].
  destruct (raises_for_status r); [discriminate|].
  destruct (body r) as [|data|why]; [discriminate| |discriminate].
  destruct (extract_text data missing); discriminate.
Qed.

Lemma vision_step_not_question_missing start st ev :
  match vision_step start st ev with
  | Continue _ (Some out) | Finished _ out => out <> QuestionMissing
  | _ => True
  end.
Proof.
  unfold vision_step. destruct (ev_data ev) as [|data|why]; [exact I| |exact I].
  unfold vision_dispatch. destruct data; try exact I.
  destruct (_ || _); [discriminate|].
  destruct (dict_has fields k_error); [discriminate|].
  destruct (dict_has fields k_text).
  { destruct (str_iadd _ _); [|exact I].
    destruct (py_len _); [discriminate | exact I]. }
  destruct (dict_has fields k_finalText); [|exact I].
  match goal with
  | |- context [match ?x with Ok _ => _ | Raise _ => _ end] => destruct x
  end; [|exact I].
  match goal with
  | |- context [match ?x with Ok _ => _ | Raise _ => _ end] => destruct x
  end; [discriminate | exact I].
Qed.

Lemma vision_run_not_question_missing start (events : list sse_event) :
  forall st,
    ~ In QuestionMissing (yielded (for_events (vision_step start) st events)).
Proof.
  induction events as [|ev rest IH]; intros st; cbn [for_events];
    [intros []|].
  pose proof (vision_step_not_question_missing start st ev) as Hstep.
  destruct (vision_step start st ev) as [st' [out|]|st' out|st' e];
    unfold emit; cbn [yielded].
  - intros [Heq|Hin]; [now apply Hstep | now apply (IH st')].
  - apply IH.
  - intros [Heq|[]]. now apply Hstep.
  - intros [].
Qed.

(** C10. [test_vision_analysis] and [test_vision_stream_analysis] return
    the missing-image message without posting when the image is [None], and
    only then give that message.  A question that is empty or all
    whitespace is replaced by the default question: the call is the call
    made with the default, the request posted (once the image is encoded)
    carries the default, and the missing-question message is never among
    the outputs.  [test_standard_generation] and [test_stream_generation]
    answer such a question with the missing-question message and post
    nothing. *)
Theorem vision_question_defaults (self : BackendTester)
    (post : request -> posted) :
  (forall q s e,
     test_vision_analysis self post None q s e
     = {| outputs := [ImageMissing]; posts := [] |})
  /\ (forall q s,
        test_vision_stream_analysis self post None q s
        = {| outputs := [ImageMissing]; posts := [] |})
  /\ (forall img q s e,
        strip q = [] ->
        test_vision_analysis self post (Some img) q s e
        = test_vision_analysis self post (Some img)
            default_vision_question s e)
  /\ (forall img q s,
        strip q = [] ->
        test_vision_stream_analysis self post (Some img) q s
        = test_vision_stream_analysis self post (Some img)
            default_vision_question s)
  /\ (forall img image_base64 q s e,
        jpeg_base64 img = Ok image_base64 ->
        posts (test_vision_analysis self post (Some img) q s e)
        = [{| url := base_url self ++ lit "/api/gemini/vision";
              payload :=
                contents [text_part (if is_empty (strip q)
                                     then default_vision_question else q);
                          image_part image_base64];
              streamed := false |}])
  /\ (forall img image_base64 q s,
        jpeg_base64 img = Ok image_base64 ->
        posts (test_vision_stream_analysis self post (Some img) q s)
        = [{| url := base_url self ++ lit "/api/gemini/vision-stream";
              payload :=
                contents [text_part (if is_empty (strip q)
                                     then default_vision_question else q);
                          image_part image_base64];
              streamed := true |}])
  /\ (forall img q s e,
        ~ In QuestionMissing
            (outputs (test_vision_analysis self post (Some img) q s e))
        /\ outputs (test_vision_analysis self post (Some img) q s e)
           <> [ImageMissing])
  /\ (forall img q s,
        ~ In QuestionMissing
            (outputs (test_vision_stream_analysis self post (Some img) q s))
        /\ outputs (test_vision_stream_analysis self post (Some img) q s)
           <> [ImageMissing])
  /\ (forall q s e,
        strip q = [] ->
        test_standard_generation self post q s e
        = {| outputs := [QuestionMissing]; posts := [] |})
  /\ (forall q s,
        strip q = [] ->
        test_stream_generation self post q s
        = {| outputs := [QuestionMissing]; posts := [] |}).
Proof.
  split; [reflexivity|]. split; [reflexivity|].
  split.
  { intros img q s e Hq. unfold test_vision_analysis.
    now rewrite (blank_is_empty q Hq), default_vision_question_kept. }
  split.
  { intros img q s Hq. unfold test_vision_stream_analysis.
    now rewrite (blank_is_empty q Hq), default_vision_question_kept. }
  split.
  { intros img b64 q s e Himg. unfold test_vision_analysis.
    now rewrite Himg. }
  split.
  { intros img b64 q s Himg. unfold test_vision_stream_analysis.
    now rewrite Himg. }
  split.
  { intros img q s e. unfold test_vision_analysis.
    destruct (jpeg_base64 img) as [b64|err]; cbn [outputs].
    - split.
      + intros [Heq|[]].
        now apply read_answer_not_question_missing in Heq.
      + unfold read_answer. destruct (post _) as [|r]; [discriminate|].
        destruct (raises_for_status r); [discriminate|].
        destruct (body r) as [|data|why]; [discriminate| |discriminate].
        destruct (extract_text data no_analysis_result); discriminate.
    - split; [intros [Heq|[]]; discriminate | discriminate]. }
  split.
  { intros img q s. unfold test_vision_stream_analysis.
    destruct (jpeg_base64 img) as [b64|err]; cbn [outputs].
    - split; [|discriminate].
      intros [Heq|Hin]; [discriminate|].
      destruct (post _) as [|r].
      + destruct Hin as [Heq|[]]; discriminate.
      + destruct (raises_for_status r).
        * destruct Hin as [Heq|[]]; discriminate.
        * destruct Hin as [Heq|Hin]; [discriminate|].
          apply in_app_or in Hin. destruct Hin as [Hin|Hin].
          -- now apply vision_run_not_question_missing in Hin.
          -- destruct (how _); cbn in Hin; try contradiction.
             destruct Hin as [Heq|[]]; discriminate.
    - split; [intros [Heq|[]]; discriminate | discriminate]. }
  split.
  { intros q s e Hq. unfold test_standard_generation.
    now rewrite (blank_is_empty q Hq). }
  intros q s Hq. unfold test_stream_generation.
  now rewrite (blank_is_empty q Hq).
Qed.

Lemma vision_question_defaults_witness :
  let self := {| base_url := lit "http://localhost:3001" |} in
  let post := fun _ : request => PostRaised in
  let img := {| size := (1, 1)%Z; jpeg_base64 := Ok (lit "AAAA") |} in
  let blank := [32; 9; 10; 12288]%N in
  strip blank = []
  /\ jpeg_base64 img = Ok (lit "AAAA")
  /\ posts (test_vision_analysis self post (Some img) blank
              (inject_Z 0) (inject_Z 1))
     = [{| url := lit "http://localhost:3001/api/gemini/vision";
           payload := contents [text_part default_vision_question;
                                image_part (lit "AAAA")];
           streamed := false |}]
  /\ test_stream_generation self post blank (inject_Z 0)
     = {| outputs := [QuestionMissing]; posts := [] |}.
Proof.
  cbv zeta.
  pose proof (vision_question_defaults
                {| base_url := lit "http://localhost:3001" |}
                (fun _ : request => PostRaised))
    as (_ & _ & _ & _ & Hposts & _ & _ & _ & _ & Hstream).
  split; [reflexivity|]. split; [reflexivity|]. split.
  - rewrite (Hposts {| size := (1, 1)%Z; jpeg_base64 := Ok (lit "AAAA") |}
               (lit "AAAA") [32; 9; 10; 12288]%N (inject_Z 0) (inject_Z 1)
               eq_refl).
    reflexivity.
  - exact (Hstream [32; 9; 10; 12288]%N (inject_Z 0) eq_refl).
Defined.

(* ================================================================== *)
(** * Further properties of the loops *)

(** X1. A payload that decodes to something other than an object (a list, a
    string, a number, null) is not skipped as an undecodable one is: in
    both loops [data.get] raises [AttributeError], nothing is yielded for
    the event, the later events stay unread, and the call closes with the
    generic failure message. *)
Theorem non_object_payload_aborts (start : Q) (ev : sse_event) (data : json)
    (rest : list sse_event) :
  ev_data ev = Loaded data ->
  is_object data = false ->
  (forall st,
     for_events (stream_step start) st (ev :: rest)
     = {| yielded := []; final := count_chunk st;
          how := Excepted AttributeError; unread := rest |})
  /\ (forall st,
        for_events (vision_step start) st (ev :: rest)
        = {| yielded := []; final := v_count_chunk st;
             how := Excepted AttributeError; unread := rest |})
  /\ (forall self question r,
        is_empty (strip question) = false ->
        raises_for_status r = false ->
        outputs (test_stream_generation self
                   (fun _ => PostReturned (with_events r (ev :: rest)))
                   question start)
        = [Connecting; Connected; RequestFailed AttributeError]).
Proof.
  intros Hev Hobj.
  assert (Hs : forall st, stream_step start st ev
                          = Crashed (count_chunk st) AttributeError).
  { intros st. unfold stream_step. rewrite Hev.
    destruct data; try reflexivity. discriminate. }
  assert (Hv : forall st, vision_step start st ev
                          = Crashed (v_count_chunk st) AttributeError).
  { intros st. unfold vision_step. rewrite Hev.
    destruct data; try reflexivity. discriminate. }
  split; [intros st; cbn [for_events]; now rewrite Hs|].
  split; [intros st; cbn [for_events]; now rewrite Hv|].
  intros self question r Hq Hr. unfold test_stream_generation.
  rewrite Hq. cbn [outputs]. unfold raises_for_status in *.
  cbn [with_events status_code events]. rewrite Hr.
  unfold stream_loop. cbn [for_events]. rewrite Hs. reflexivity.
Qed.

Lemma non_object_payload_aborts_witness :
  let ev := event_of (JList [JStr (lit "Hello")]) (inject_Z 0) in
  let later := [content_event (lit "late") (inject_Z 0)] in
  ev_data ev = Loaded (JList [JStr (lit "Hello")])
  /\ is_object (JList [JStr (lit "Hello")]) = false
  /\ for_events (stream_step (inject_Z 0)) stream_start (ev :: later)
     = {| yielded := []; final := count_chunk stream_start;
          how := Excepted AttributeError; unread := later |}.
Proof.
  cbv zeta. split; [reflexivity|]. split; [reflexivity|].
  exact (proj1 (non_object_payload_aborts (inject_Z 0)
                  (event_of (JList [JStr (lit "Hello")]) (inject_Z 0))
                  (JList [JStr (lit "Hello")])
                  [content_event (lit "late") (inject_Z 0)]
                  eq_refl eq_refl) stream_start).
Defined.

(** ** Vision session: increments are concatenated *)

Lemma vision_step_text start s n d t :
  vision_step start {| v_accumulated_text := s; v_chunk_count := n |}
    (text_event d t)
  = Continue {| v_accumulated_text := s ++ d; v_chunk_count := S n |}
      (Some (VisionDelta (JStr d) (s ++ d) (millis start t) (S n)
               (List.length (s ++ d)) (List.length d))).
Proof. reflexivity. Qed.

Lemma vision_text_run start (ds : list (str * Q)) t : forall s n,
  let r := for_events (vision_step start)
             {| v_accumulated_text := s; v_chunk_count := n |}
             (map (fun d => text_event (fst d) (snd d)) ds
              ++ [completed_event t]) in
  let whole := s ++ List.concat (map fst ds) in
  let chunks := S (n + List.length ds) in
  how r = Returned /\ unread r = []
  /\ final r = {| v_accumulated_text := whole; v_chunk_count := chunks |}
  /\ exists before,
       List.length before = List.length ds
       /\ yielded r
          = before ++ [VisionDone whole (millis start t) chunks None
                         (List.length whole)].
Proof.
  induction ds as [|[d u] ds IH]; intros s n; cbv zeta.
  - cbn [map app List.concat for_events].
    cbn. rewrite app_nil_r, Nat.add_0_r.
    repeat split. exists []. split; reflexivity.
  - cbn [map app List.concat for_events fst snd].
    rewrite vision_step_text.
    destruct (IH (s ++ d) (S n)) as (Hh & Hu & Hf & before & Hl & Hy).
    cbv zeta in Hh, Hu, Hf, Hy.
    unfold emit. cbn [how unread final yielded List.length].
    rewrite <- app_assoc in Hf, Hy.
    replace (S (n + S (List.length ds))) with (S (S n + List.length ds))
      by lia.
    repeat split; try assumption.
    exists (VisionDelta (JStr d) (s ++ d) (millis start u) (S n)
              (List.length (s ++ d)) (List.length d) :: before).
    split; [simpl; now rewrite Hl|]. rewrite Hy. reflexivity.
Qed.


(** ** What a terminal or an unrecognised event does to the text *)

(** X3. A terminal event never changes the accumulated text, whatever else
    it carries: an increment sent in the same object as [done], [error],
    a true [finishReason] or the [status] "completed" is dropped, and the
    final snapshot of the vision loop shows the text as it was before. *)
Theorem terminal_event_drops_its_text (start : Q) (ev : sse_event)
    (data : json) :
  ev_data ev = Loaded data ->
  (stream_terminal data = true ->
   forall st,
     accumulated_text (state_of (stream_step start st ev))
     = accumulated_text st)
  /\ (vision_terminal data = true ->
      forall st,
        v_accumulated_text (state_of (vision_step start st ev))
        = v_accumulated_text st
        /\ exists out,
             vision_step start st ev = Finished (v_count_chunk st) out
             /\ (shown_text out = Some (JStr (v_accumulated_text st))
                 \/ shown_text out = None)).
Proof.
  intros Hev. split; intros Hterm st.
  - unfold stream_step. rewrite Hev.
    destruct data; try discriminate. cbn [stream_terminal] in Hterm.
    unfold stream_dispatch.
    destruct (eq_True (dict_get fields k_done)).
    + destruct (_ <- _ ;; _); reflexivity.
    + cbn [orb] in Hterm. rewrite Hterm. reflexivity.
  - unfold vision_step. rewrite Hev.
    destruct data; try discriminate. cbn [vision_terminal] in Hterm.
    unfold vision_dispatch, vision_finished in *.
    destruct (truthy (dict_get fields k_finishReason)
              || eq_str (dict_get fields k_status) s_completed).
    + split; [reflexivity|]. eexists. split; [reflexivity|].
      left. reflexivity.
    + cbn [orb] in Hterm. rewrite Hterm.
      split; [reflexivity|]. eexists. split; [reflexivity|].
      right. reflexivity.
Qed.

Lemma terminal_event_drops_its_text_witness :
  let data := JObj [(k_done, JBool true); (k_content, JStr (lit "tail"))] in
  let ev := event_of data (inject_Z 0) in
  let st := {| accumulated_text := JStr (lit "head"); chunk_count := 1 |} in
  ev_data ev = Loaded data
  /\ stream_terminal data = true
  /\ accumulated_text (state_of (stream_step (inject_Z 0) st ev))
     = JStr (lit "head").
Proof.
  cbv zeta. split; [reflexivity|]. split; [reflexivity|].
  exact (proj1 (terminal_event_drops_its_text (inject_Z 0)
                  (event_of (JObj [(k_done, JBool true);
                                   (k_content, JStr (lit "tail"))])
                     (inject_Z 0))
                  (JObj [(k_done, JBool true);
                         (k_content, JStr (lit "tail"))])
                  eq_refl) eq_refl
           {| accumulated_text := JStr (lit "head"); chunk_count := 1 |}).
Defined.

(** X4. An object that no branch recognises is counted and nothing more.
    In the text loop that is an object without [done] equal to [True],
    without [error], without [text], and whose [content] is absent or
    false (an empty string, say); in the vision loop an object that is not
    finished and has none of [error], [text], [finalText].  The loop goes
    on with the next event as if only the counter had moved. *)
Theorem unrecognised_object_is_only_counted (start : Q) (ev : sse_event)
    (d : list (str * json)) (rest : list sse_event) :
  ev_data ev = Loaded (JObj d) ->
  (stream_terminal (JObj d) = false ->
   dict_has d k_content && truthy (dict_get d k_content) = false ->
   dict_has d k_text = false ->
   forall st,
     for_events (stream_step start) st (ev :: rest)
     = for_events (stream_step start) (count_chunk st) rest)
  /\ (vision_terminal (JObj d) = false ->
      dict_has d k_text = false ->
      dict_has d k_finalText = false ->
      forall st,
        for_events (vision_step start) st (ev :: rest)
        = for_events (vision_step start) (v_count_chunk st) rest).
Proof.
  intros Hev. split.
  - intros Hterm Hcontent Htext st. cbn [stream_terminal] in Hterm.
    apply orb_false_iff in Hterm. destruct Hterm as [Hdone Herr].
    cbn [for_events]. unfold stream_step, stream_dispatch.
    rewrite Hev, Hdone, Herr, Hcontent, Htext. apply emit_None.
  - intros Hterm Htext Hfinal st. cbn [vision_terminal] in Hterm.
    apply orb_false_iff in Hterm. destruct Hterm as [Hfin Herr].
    unfold vision_finished in Hfin.
    cbn [for_events]. unfold vision_step, vision_dispatch.
    rewrite Hev, Hfin, Herr, Htext, Hfinal. apply emit_None.
Qed.

Lemma unrecognised_object_is_only_counted_witness :
  let d := [(k_content, JStr [])] in
  let ev := event_of (JObj d) (inject_Z 0) in
  let st := {| accumulated_text := JStr (lit "A"); chunk_count := 1 |} in
  ev_data ev = Loaded (JObj d)
  /\ stream_terminal (JObj d) = false
  /\ dict_has d k_content && truthy (dict_get d k_content) = false
  /\ dict_has d k_text = false
  /\ for_events (stream_step (inject_Z 0)) st [ev]
     = {| yielded := [];
          final := {| accumulated_text := JStr (lit "A"); chunk_count := 2 |};
          how := Exhausted; unread := [] |}.
Proof.
  cbv zeta. do 4 (split; [reflexivity|]).
  rewrite (proj1 (unrecognised_object_is_only_counted (inject_Z 0)
                    (event_of (JObj [(k_content, JStr [])]) (inject_Z 0))
                    [(k_content, JStr [])] [] eq_refl)
             eq_refl eq_refl eq_refl).
  reflexivity.
Defined.

(** ** The chunk numbers on display *)

Section Numbering.
Context {S : Type}.
Variable step : S -> sse_event -> outcome S.
Variable count : S -> nat.
Hypothesis step_counts :
  forall st ev, count (state_of (step st ev)) = Datatypes.S (count st).
Hypothesis step_numbers :
  forall st ev,
    match step st ev with
    | Continue _ (Some out) | Finished _ out =>
        chunk_number out = None
        \/ chunk_number out = Some (Datatypes.S (count st))
    | _ => True
    end.

Lemma loop_numbers (events : list sse_event) : forall st,
  Forall (fun c => count st < c <= count (final (for_events step st events)))
    (chunk_numbers (yielded (for_events step st events)))
  /\ StronglySorted lt (chunk_numbers (yielded (for_events step st events))).
Proof.
  induction events as [|ev rest IH]; intros st; cbn [for_events].
  - split; constructor.
  - pose proof (step_counts st ev) as Hc.
    pose proof (step_numbers st ev) as Hn.
    destruct (step st ev) as [st' out|st' out|st' e]; cbn [state_of] in Hc.
    + destruct (IH st') as [Hall Hsorted].
      destruct (loop_counts step count step_counts rest st')
        as (pulled & _ & Hfinal).
      assert (Hrest : Forall
                (fun c => count st < c
                          <= count (final (for_events step st' rest)))
                (chunk_numbers (yielded (for_events step st' rest)))).
      { eapply Forall_impl; [|exact Hall]. cbv beta. intros c Hcs. lia. }
      unfold emit; cbn [final yielded].
      destruct out as [out|]; [|split; assumption].
      unfold chunk_numbers. cbn [flat_map]. fold (chunk_numbers).
      destruct Hn as [Hn|Hn]; rewrite Hn; cbn [app]; [split; assumption|].
      split.
      * constructor; [lia | exact Hrest].
      * constructor; [exact Hsorted|].
        eapply Forall_impl; [|exact Hall]. cbv beta. intros c Hcs. lia.
    + cbn [final yielded]. unfold chunk_numbers. cbn [flat_map].
      destruct Hn as [Hn|Hn]; rewrite Hn; cbn [app].
      * split; constructor.
      * split; repeat constructor; lia.
    + cbn [final yielded]. split; constructor.
Qed.
End Numbering.

Lemma stream_step_numbers start st ev :
  match stream_step start st ev with
  | Continue _ (Some out) | Finished _ out =>
      chunk_number out = None \/ chunk_number out = Some (S (chunk_count st))
  | _ => True
  end.
Proof.
  unfold stream_step. destruct (ev_data ev) as [|data|why]; [exact I| |exact I].
  unfold stream_dispatch. destruct data; try exact I.
  destruct (eq_True _).
  { unfold bind. destruct (py_truediv _ _); [|exact I].
    destruct (py_len _); [right; reflexivity | exact I]. }
  destruct (dict_has fields k_error); [left; reflexivity|].
  destruct (_ && _).
  { destruct (py_iadd _ _); [|exact I]. unfold bind.
    destruct (py_len _); [|exact I].
    destruct (py_len _); [right; reflexivity | exact I]. }
  destruct (dict_has fields k_text); [right; reflexivity | exact I].
Qed.

Lemma vision_step_numbers start st ev :
  match vision_step start st ev with
  | Continue _ (Some out) | Finished _ out =>
      chunk_number out = None
      \/ chunk_number out = Some (S (v_chunk_count st))
  | _ => True
  end.
Proof.
  unfold vision_step. destruct (ev_data ev) as [|data|why]; [exact I| |exact I].
  unfold vision_dispatch. destruct data; try exact I.
  destruct (_ || _); [right; reflexivity|].
  destruct (dict_has fields k_error); [left; reflexivity|].
  destruct (dict_has fields k_text).
  { destruct (str_iadd _ _); [|exact I].
    destruct (py_len _); [right; reflexivity | exact I]. }
  destruct (dict_has fields k_finalText); [|exact I].
  match goal with
  | |- context [match ?x with Ok _ => _ | Raise _ => _ end] => destruct x
  end; [|exact I].
  match goal with
  | |- context [match ?x with Ok _ => _ | Raise _ => _ end] => destruct x
  end; [right; reflexivity | exact I].
Qed.


(** ** The text on display *)

Section Display.
Context {S : Type}.
Variable step : S -> sse_event -> outcome S.
Variable text_of : S -> json.
(** Whether an exception leaves the text as it was. *)
Variable crash_keeps : bool.
Hypothesis step_shows :
  forall st ev,
    match step st ev with
    | Continue st' (Some out) | Finished st' out =>
        shown_text out = Some (text_of st')
        \/ (shown_text out = None /\ text_of st' = text_of st)
    | Continue st' None => text_of st' = text_of st
    | Crashed st' _ => crash_keeps = true -> text_of st' = text_of st
    end.

Lemma loop_shows (events : list sse_event) : forall st,
  crash_keeps = true
  \/ (forall e, how (for_events step st events) <> Excepted e) ->
  latest_text (text_of st) (yielded (for_events step st events))
  = text_of (final (for_events step st events)).
Proof.
  unfold latest_text.
  induction events as [|ev rest IH]; intros st Hok; cbn [for_events] in *;
    [reflexivity|].
  pose proof (step_shows st ev) as Hs.
  destruct (step st ev) as [st' [out|]|st' out|st' e];
    unfold emit in *; cbn [yielded final how fold_left] in *.
  - destruct Hs as [Hs|[Hs Hsame]]; rewrite Hs.
    + now apply IH.
    + rewrite <- Hsame. now apply IH.
  - rewrite <- Hs. now apply IH.
  - destruct Hs as [Hs|[Hs Hsame]]; rewrite Hs; congruence.
  - destruct Hok as [Hkeep|Hno]; [symmetry; now apply Hs|].
    now destruct (Hno e).
Qed.
End Display.

Lemma stream_step_shows start st ev :
  match stream_step start st ev with
  | Continue st' (Some out) | Finished st' out =>
      shown_text out = Some (accumulated_text st')
      \/ (shown_text out = None /\ accumulated_text st' = accumulated_text st)
  | Continue st' None => accumulated_text st' = accumulated_text st
  | Crashed st' _ => false = true -> accumulated_text st' = accumulated_text st
  end.
Proof.
  unfold stream_step. destruct (ev_data ev) as [|data|why]; [reflexivity| |reflexivity].
  unfold stream_dispatch. destruct data; try discriminate.
  destruct (eq_True _).
  { unfold bind. destruct (py_truediv _ _); [|discriminate].
    destruct (py_len _); [left; reflexivity | discriminate]. }
  destruct (dict_has fields k_error); [right; split; reflexivity|].
  destruct (_ && _).
  { destruct (py_iadd _ _); [|discriminate]. unfold bind.
    destruct (py_len _); [|discriminate].
    destruct (py_len _); [left; reflexivity | discriminate]. }
  destruct (dict_has fields k_text); [left; reflexivity | reflexivity].
Qed.

Lemma str_iadd_len acc delta acc' :
  str_iadd acc delta = Ok acc' -> exists n, py_len delta = Ok n.
Proof. destruct delta; cbn; try discriminate. eexists; reflexivity. Qed.

Lemma vision_step_shows start st ev :
  match vision_step start st ev with
  | Continue st' (Some out) | Finished st' out =>
      shown_text out = Some (JStr (v_accumulated_text st'))
      \/ (shown_text out = None
          /\ JStr (v_accumulated_text st') = JStr (v_accumulated_text st))
  | Continue st' None =>
      JStr (v_accumulated_text st') = JStr (v_accumulated_text st)
  | Crashed st' _ =>
      true = true -> JStr (v_accumulated_text st') = JStr (v_accumulated_text st)
  end.
Proof.
  unfold vision_step. destruct (ev_data ev) as [|data|why]; [reflexivity| |reflexivity].
  unfold vision_dispatch. destruct data; try reflexivity.
  destruct (_ || _); [left; reflexivity|].
  destruct (dict_has fields k_error); [right; split; reflexivity|].
  destruct (dict_has fields k_text).
  { destruct (str_iadd _ _) as [acc|e] eqn:Hadd; [|reflexivity].
    destruct (str_iadd_len _ _ _ Hadd) as [n ->]. left; reflexivity. }
  destruct (dict_has fields k_finalText); [|reflexivity].
  destruct (truthy (dict_get fields k_finalText)); [|left; reflexivity].
  unfold bind. destruct (dict_get fields k_finalText); cbn [str_in];
    try reflexivity.
  destruct (negb _); cbn [str_iadd py_len]; left; reflexivity.
Qed.

(** X6. The display is never stale.  In the vision loop the accumulated
    text at the end of a run is the text of the last snapshot that shows
    one (the empty string when none does), however the run ends.  The same
    holds in the text loop for every run that does not end on an
    exception. *)
Theorem last_snapshot_shows_final_text (start : Q) (events : list sse_event) :
  latest_text (JStr []) (yielded (vision_loop start events))
  = JStr (v_accumulated_text (final (vision_loop start events)))
  /\ ((forall e, how (stream_loop start events) <> Excepted e) ->
      latest_text (JStr []) (yielded (stream_loop start events))
      = accumulated_text (final (stream_loop start events))).
Proof.
  split.
  - apply (loop_shows (vision_step start)
             (fun st => JStr (v_accumulated_text st)) true
             (vision_step_shows start) events vision_start).
    left; reflexivity.
  - intros Hno.
    apply (loop_shows (stream_step start) accumulated_text false
             (stream_step_shows start) events stream_start).
    right; exact Hno.
Qed.

Lemma last_snapshot_shows_final_text_witness :
  let events := [content_event (lit "A") (inject_Z 0);
                 {| ev_data := JSONDecodeError; ev_clock := inject_Z 0 |};
                 text_event (lit "B") (inject_Z 0);
                 event_of (JObj []) (inject_Z 0)] in
  (forall e, how (stream_loop (inject_Z 0) events) <> Excepted e)
  /\ latest_text (JStr []) (yielded (stream_loop (inject_Z 0) events))
     = JStr (lit "B").
Proof.
  cbv zeta.
  assert (Hno : forall e,
            how (stream_loop (inject_Z 0)
                   [content_event (lit "A") (inject_Z 0);
                    {| ev_data := JSONDecodeError; ev_clock := inject_Z 0 |};
                    text_event (lit "B") (inject_Z 0);
                    event_of (JObj []) (inject_Z 0)]) <> Excepted e)
    by (intros e; discriminate).
  split; [exact Hno|].
  rewrite (proj2 (last_snapshot_shows_final_text (inject_Z 0) _) Hno).
  reflexivity.
Defined.

(** ** Increments that are not strings *)

(** X16. An increment that is not a string ends the session with a
    [TypeError] instead of being shown or skipped.  In the text loop that
    is a [content] holding a true value other than a string (a number, a
    list) met while the accumulated text is a string; in the vision loop
    any [text] value other than a string, null included.  The accumulated
    text is left as it was, nothing is yielded for the event and the later
    events stay unread. *)
Theorem non_string_increment_aborts (start : Q) (ev : sse_event)
    (d : list (str * json)) (v : json) (rest : list sse_event) :
  ev_data ev = Loaded (JObj d) ->
  is_string v = false ->
  (stream_terminal (JObj d) = false ->
   lookup k_content d = Some v ->
   truthy v = true ->
   forall st s,
     accumulated_text st = JStr s ->
     for_events (stream_step start) st (ev :: rest)
     = {| yielded := []; final := count_chunk st;
          how := Excepted TypeError; unread := rest |})
  /\ (vision_terminal (JObj d) = false ->
      lookup k_text d = Some v ->
      forall st,
        for_events (vision_step start) st (ev :: rest)
        = {| yielded := []; final := v_count_chunk st;
             how := Excepted TypeError; unread := rest |}).
Proof.
  intros Hev Hv. split.
  - intros Hterm Hc Ht st s Hs. cbn [stream_terminal] in Hterm.
    apply orb_false_iff in Hterm. destruct Hterm as [Hdone Herr].
    cbn [for_events]. unfold stream_step, stream_dispatch.
    rewrite Hev, Hdone, Herr. unfold dict_has, dict_get. rewrite Hc, Ht.
    cbn [andb count_chunk accumulated_text]. rewrite Hs.
    destruct v; try discriminate; reflexivity.
  - intros Hterm Hc st. cbn [vision_terminal] in Hterm.
    apply orb_false_iff in Hterm. destruct Hterm as [Hfin Herr].
    unfold vision_finished in Hfin.
    cbn [for_events]. unfold vision_step, vision_dispatch.
    rewrite Hev, Hfin, Herr. unfold dict_has, dict_get. rewrite Hc.
    destruct v; try discriminate; reflexivity.
Qed.

Lemma non_string_increment_aborts_witness :
  let d := [(k_content, JInt 5); (k_text, JInt 5)] in
  let ev := event_of (JObj d) (inject_Z 0) in
  let st := {| accumulated_text := JStr (lit "A"); chunk_count := 1 |} in
  ev_data ev = Loaded (JObj d)
  /\ is_string (JInt 5) = false
  /\ stream_terminal (JObj d) = false
  /\ lookup k_content d = Some (JInt 5)
  /\ truthy (JInt 5) = true
  /\ accumulated_text st = JStr (lit "A")
  /\ for_events (stream_step (inject_Z 0)) st [ev]
     = {| yielded := [];
          final := {| accumulated_text := JStr (lit "A"); chunk_count := 2 |};
          how := Excepted TypeError; unread := [] |}.
Proof.
  cbv zeta. do 6 (split; [reflexivity|]).
  exact (proj1 (non_string_increment_aborts (inject_Z 0)
                  (event_of (JObj [(k_content, JInt 5); (k_text, JInt 5)])
                     (inject_Z 0))
                  [(k_content, JInt 5); (k_text, JInt 5)] (JInt 5) []
                  eq_refl eq_refl)
           eq_refl eq_refl eq_refl
           {| accumulated_text := JStr (lit "A"); chunk_count := 1 |}
           (lit "A") eq_refl).
Defined.

(* ================================================================== *)
(** * Further properties of the calls *)

(** ** Whitespace *)

Lemma lstrip_nil_iff (s : str) :
  lstrip s = [] <-> forallb is_whitespace s = true.
Proof.
  induction s as [|c s IH]; cbn; [tauto|].
  destruct (is_whitespace c); cbn; [exact IH|].
  split; discriminate.
Qed.

Lemma lstrip_head (s : str) c t :
  lstrip s = c :: t -> is_whitespace c = false.
Proof.
  induction s as [|x s IH]; cbn; [discriminate|].
  destruct (is_whitespace x) eqn:Hx; [exact IH|].
  intros H; inversion H; subst. exact Hx.
Qed.

Lemma forallb_rev (f : codepoint -> bool) (s : str) :
  forallb f (rev s) = forallb f s.
Proof.
  induction s as [|c s IH]; [reflexivity|].
  cbn. rewrite forallb_app, IH. cbn. rewrite andb_true_r. apply andb_comm.
Qed.

(** [s.strip()] is empty exactly when every character of [s] is
    whitespace. *)
Lemma strip_nil_iff (s : str) :
  strip s = [] <-> forallb is_whitespace s = true.
Proof.
  unfold strip, rstrip. split.
  - intros H. apply (f_equal (@rev codepoint)) in H.
    rewrite rev_involutive in H. cbn in H.
    apply lstrip_nil_iff in H. rewrite forallb_rev in H.
    destruct (lstrip s) as [|c t] eqn:Hl; [now apply lstrip_nil_iff|].
    apply lstrip_head in Hl. cbn in H. rewrite Hl in H. discriminate.
  - intros H. apply lstrip_nil_iff in H. now rewrite H.
Qed.

Lemma is_empty_strip (q : str) :
  is_empty (strip q) = forallb is_whitespace q.
Proof.
  destruct (forallb is_whitespace q) eqn:Hq.
  - apply strip_nil_iff in Hq. now rewrite Hq.
  - destruct (strip q) eqn:Hs; [|reflexivity].
    apply strip_nil_iff in Hs. congruence.
Qed.

(** X7. The two text operations turn a question away exactly when each of
    its characters is whitespace (the empty question included), and then
    post nothing.  Any other question is posted once and as typed, its
    leading and trailing whitespace included: [strip] is used for the test
    only. *)
Theorem text_question_guard (self : BackendTester) (post : request -> posted)
    (q : str) :
  (forallb is_whitespace q = true ->
   (forall s e,
      test_standard_generation self post q s e
      = {| outputs := [QuestionMissing]; posts := [] |})
   /\ (forall s,
         test_stream_generation self post q s
         = {| outputs := [QuestionMissing]; posts := [] |}))
  /\ (forallb is_whitespace q = false ->
      (forall s e,
         posts (test_standard_generation self post q s e)
         = [{| url := base_url self ++ lit "/api/gemini/generate";
               payload := contents [text_part q];
               streamed := false |}])
      /\ (forall s,
            posts (test_stream_generation self post q s)
            = [{| url := base_url self ++ lit "/api/gemini/stream";
                  payload := JObj [(lit "prompt", JStr q);
                                   (lit "maxTokens", JInt 4096)];
                  streamed := true |}]
            /\ hd_error (outputs (test_stream_generation self post q s))
               = Some Connecting)).
Proof.
  split; intros Hq.
  - split; intros; unfold test_standard_generation, test_stream_generation;
      now rewrite is_empty_strip, Hq.
  - split; intros; unfold test_standard_generation, test_stream_generation;
      rewrite is_empty_strip, Hq; [reflexivity|]. split; reflexivity.
Qed.

Lemma text_question_guard_witness :
  let self := {| base_url := lit "http://localhost:3001" |} in
  let post := fun _ : request => PostRaised in
  let q := lit " hi " in
  forallb is_whitespace q = false
  /\ forallb is_whitespace [32; 160; 10]%N = true
  /\ posts (test_standard_generation self post q (inject_Z 0) (inject_Z 1))
     = [{| url := lit "http://localhost:3001/api/gemini/generate";
           payload := contents [text_part (lit " hi ")];
           streamed := false |}]
  /\ test_stream_generation self post [32; 160; 10]%N (inject_Z 0)
     = {| outputs := [QuestionMissing]; posts := [] |}.
Proof.
  cbv zeta. split; [reflexivity|]. split; [reflexivity|]. split.
  - rewrite (proj1 (proj2 (text_question_guard
                             {| base_url := lit "http://localhost:3001" |}
                             (fun _ : request => PostRaised) (lit " hi "))
                      eq_refl)).
    reflexivity.
  - exact (proj2 (proj1 (text_question_guard
                           {| base_url := lit "http://localhost:3001" |}
                           (fun _ : request => PostRaised) [32; 160; 10]%N)
                    eq_refl) (inject_Z 0)).
Defined.

(** ** An error status on a streamed answer *)

(** X8. When the backend answers a streaming request with a 4xx or 5xx
    status, the call yields the connecting notice and one error message
    chosen from the status code, and stops: the connected notice is not
    yielded and no event of the answer is read, whatever events it
    carries.  The two operations choose differently: 503 is "service
    busy" and 500 is generic for the text stream, 500 is "server error"
    and 413 "payload too large" for the vision stream. *)
Theorem error_status_reads_no_event (self : BackendTester) (r : response)
    (evs : list sse_event) (start : Q) :
  raises_for_status r = true ->
  (forall q,
     is_empty (strip q) = false ->
     outputs (test_stream_generation self
                (fun _ => PostReturned (with_events r evs)) q start)
     = [Connecting; HttpFailure (stream_http_message r)])
  /\ (forall img image_base64 q,
        jpeg_base64 img = Ok image_base64 ->
        outputs (test_vision_stream_analysis self
                   (fun _ => PostReturned (with_events r evs))
                   (Some img) q start)
        = [Connecting; HttpFailure (vision_http_message r)])
  /\ (stream_http_message r = ServiceBusy <-> status_code r = 503%Z)
  /\ (vision_http_message r = PayloadTooLarge <-> status_code r = 413%Z)
  /\ (forall body, stream_http_message r <> ServerError body)
  /\ vision_http_message r <> ServiceBusy.
Proof.
  intros Hr. split.
  { intros q Hq. unfold test_stream_generation. rewrite Hq.
    cbn [outputs]. unfold raises_for_status in *.
    cbn [with_events status_code]. now rewrite Hr. }
  split.
  { intros img b64 q Himg. unfold test_vision_stream_analysis.
    rewrite Himg. cbn [outputs]. unfold raises_for_status in *.
    cbn [with_events status_code]. now rewrite Hr. }
  unfold stream_http_message, vision_http_message.
  repeat split.
  - destruct (status_code r =? 400)%Z eqn:H4; [discriminate|].
    destruct (status_code r =? 429)%Z eqn:H9; [discriminate|].
    destruct (status_code r =? 503)%Z eqn:H5; [|discriminate].
    intros _. now apply Z.eqb_eq.
  - intros ->. reflexivity.
  - destruct (status_code r =? 400)%Z eqn:H4; [discriminate|].
    destruct (status_code r =? 413)%Z eqn:H3; [|].
    + intros _. now apply Z.eqb_eq.
    + destruct (status_code r =? 429)%Z; [discriminate|].
      destruct (status_code r =? 500)%Z; discriminate.
  - intros ->. reflexivity.
  - intros body.
    destruct (status_code r =? 400)%Z; [discriminate|].
    destruct (status_code r =? 429)%Z; [discriminate|].
    destruct (status_code r =? 503)%Z; discriminate.
  - destruct (status_code r =? 400)%Z; [discriminate|].
    destruct (status_code r =? 413)%Z; [discriminate|].
    destruct (status_code r =? 429)%Z; [discriminate|].
    destruct (status_code r =? 500)%Z; discriminate.
Qed.

Lemma error_status_reads_no_event_witness :
  let self := {| base_url := lit "http://localhost:3001" |} in
  let r := {| status_code := 503; text := lit "busy";
              body := JSONDecodeError; events := [] |} in
  let evs := [content_event (lit "never read") (inject_Z 0)] in
  raises_for_status r = true
  /\ is_empty (strip (lit "hi")) = false
  /\ outputs (test_stream_generation self
                (fun _ => PostReturned (with_events r evs)) (lit "hi")
                (inject_Z 0))
     = [Connecting; HttpFailure ServiceBusy].
Proof.
  cbv zeta. split; [reflexivity|]. split; [reflexivity|].
  rewrite (proj1 (error_status_reads_no_event
                    {| base_url := lit "http://localhost:3001" |}
                    {| status_code := 503; text := lit "busy";
                       body := JSONDecodeError; events := [] |}
                    [content_event (lit "never read") (inject_Z 0)]
                    (inject_Z 0) eq_refl) (lit "hi") eq_refl).
  reflexivity.
Defined.

(** ** Reading a non-streaming answer *)

Lemma Generated_conditions message missing s e p found d ok :
  read_answer message missing s e p = Generated found d ok ->
  exists r data,
    p = PostReturned r /\ raises_for_status r = false
    /\ body r = Loaded data /\ is_object data = true
    /\ extract_text data missing = Ok found
    /\ d = millis s e /\ ok = differs found missing.
Proof.
  unfold read_answer. destruct p as [|r]; [discriminate|].
  destruct (raises_for_status r) eqn:Hr; [discriminate|].
  destruct (body r) as [|data|why] eqn:Hb; [discriminate| |discriminate].
  destruct (extract_text data missing) as [x|err] eqn:Hx; [|discriminate].
  intros H; inversion H; subst. exists r, data.
  repeat split; try assumption.
  destruct data; try discriminate. reflexivity.
Qed.

(** X9. The two non-streaming operations show a generated text only for an
    answer whose status is not 4xx or 5xx and whose body decodes to an
    object; the text then is what the first candidate gives.  An answer
    with an error status is reported by its status alone, whatever its
    body holds, and a failed post as a failed request. *)
Theorem generated_only_from_object_answer
    (message : response -> http_message) (missing : str) (s e : Q)
    (p : posted) :
  (forall found d ok,
     read_answer message missing s e p = Generated found d ok ->
     exists r data,
       p = PostReturned r /\ raises_for_status r = false
       /\ body r = Loaded data /\ is_object data = true
       /\ extract_text data missing = Ok found
       /\ d = millis s e /\ ok = differs found missing)
  /\ (forall r,
        p = PostReturned r -> raises_for_status r = true ->
        read_answer message missing s e p = HttpFailure (message r))
  /\ (p = PostRaised ->
      read_answer message missing s e p = RequestFailed TransportError).
Proof.
  split; [intros found d ok; apply Generated_conditions|].
  split.
  - intros r -> Hr. unfold read_answer. now rewrite Hr.
  - intros ->. reflexivity.
Qed.

Lemma generated_only_from_object_answer_witness :
  let r := {| status_code := 500; text := lit "oops";
              body := Loaded (JObj [(k_candidates, JList [])]);
              events := [] |} in
  raises_for_status r = true
  /\ read_answer generation_http_message no_generated_content
       (inject_Z 0) (inject_Z 1) (PostReturned r)
     = HttpFailure (ServerError (lit "oops")).
Proof.
  cbv zeta. split; [reflexivity|].
  exact (proj1 (proj2 (generated_only_from_object_answer
                         generation_http_message no_generated_content
                         (inject_Z 0) (inject_Z 1)
                         (PostReturned
                            {| status_code := 500; text := lit "oops";
                               body := Loaded (JObj [(k_candidates, JList [])]);
                               events := [] |})))
           _ eq_refl eq_refl).
Defined.

(** X10. Only the first part of the first candidate is read: with a
    [candidates] list whose first item is an object, whose [content] is an
    object, whose [parts] list starts with an object, the text is the
    [text] field of that first part (the default when the part has none),
    whatever the other candidates and parts are. *)
Theorem first_candidate_first_part (missing : str)
    (d cand content part : list (str * json)) (others more : list json) :
  lookup k_candidates d = Some (JList (JObj cand :: others)) ->
  lookup (lit "content") cand = Some (JObj content) ->
  lookup (lit "parts") content = Some (JList (JObj part :: more)) ->
  extract_text (JObj d) missing
  = Ok (CandidateText (match lookup k_text part with
                       | Some found => found
                       | None => JStr missing
                       end)).
Proof.
  intros Hc Hcontent Hparts. unfold extract_text.
  cbn [py_get bind]. fold k_candidates. rewrite Hc.
  cbn [truthy py_len bind List.length Nat.ltb Nat.leb py_first py_get].
  rewrite Hcontent.
  assert (Hne : truthy (JObj content) = true)
    by (destruct content; [discriminate | reflexivity]).
  rewrite Hne. cbn [py_get bind]. rewrite Hparts.
  cbn [truthy py_first bind py_get]. reflexivity.
Qed.

Lemma first_candidate_first_part_witness :
  let part := [(k_text, JStr (lit "first"))] in
  let content := [(lit "parts",
                   JList [JObj part; JObj [(k_text, JStr (lit "second"))]])] in
  let cand := [(lit "content", JObj content)] in
  let d := [(k_candidates, JList [JObj cand; JNull])] in
  lookup k_candidates d = Some (JList [JObj cand; JNull])
  /\ lookup (lit "content") cand = Some (JObj content)
  /\ lookup (lit "parts") content
     = Some (JList [JObj part; JObj [(k_text, JStr (lit "second"))]])
  /\ extract_text (JObj d) no_generated_content
     = Ok (CandidateText (JStr (lit "first"))).
Proof.
  cbv zeta. do 3 (split; [reflexivity|]).
  rewrite (first_candidate_first_part no_generated_content
             [(k_candidates,
               JList [JObj [(lit "content",
                             JObj [(lit "parts",
                                    JList [JObj [(k_text, JStr (lit "first"))];
                                           JObj [(k_text,
                                                  JStr (lit "second"))]])])];
                      JNull])]
             [(lit "content",
               JObj [(lit "parts",
                      JList [JObj [(k_text, JStr (lit "first"))];
                             JObj [(k_text, JStr (lit "second"))]])])]
             [(lit "parts",
               JList [JObj [(k_text, JStr (lit "first"))];
                      JObj [(k_text, JStr (lit "second"))]])]
             [(k_text, JStr (lit "first"))] [JNull]
             [JObj [(k_text, JStr (lit "second"))]]
             eq_refl eq_refl eq_refl).
  reflexivity.
Defined.

(** X11. The success mark of a non-streaming result is withheld only when
    the text read is exactly the default of the innermost [get].  So an
    answer without candidates, or with a [candidates] value that is false
    (an empty list, null), is still marked as a success, and so is one
    whose first candidate has no [content] or no [parts]. *)
Theorem success_mark_only_checks_default
    (message : response -> http_message) (missing : str) (s e : Q)
    (r : response) (d : list (str * json)) :
  raises_for_status r = false ->
  body r = Loaded (JObj d) ->
  (forall found, differs found missing = false
                 <-> found = CandidateText (JStr missing))
  /\ (truthy (dict_get d k_candidates) = false ->
      read_answer message missing s e (PostReturned r)
      = Generated NoCandidates (millis s e) true)
  /\ (forall cand others,
        lookup k_candidates d = Some (JList (JObj cand :: others)) ->
        truthy (dict_get cand (lit "content")) = false ->
        read_answer message missing s e (PostReturned r)
        = Generated Unparsable (millis s e) true).
Proof.
  intros Hr Hb. split.
  { intros found. destruct found as [v| |]; cbn [differs].
    - split.
      + intros H. apply negb_false_iff in H. destruct v; try discriminate.
        cbn [eq_str] in H. apply str_eqb_eq in H. now subst.
      + intros H. inversion H; subst. cbn [eq_str].
        apply negb_false_iff. now apply str_eqb_eq.
    - split; discriminate.
    - split; discriminate. }
  split.
  - intros Hc. unfold read_answer. rewrite Hr, Hb. unfold extract_text.
    cbn [py_get bind]. fold k_candidates.
    unfold dict_get in Hc. rewrite Hc. reflexivity.
  - intros cand others Hc Hcontent. unfold read_answer. rewrite Hr, Hb.
    unfold extract_text. cbn [py_get bind]. fold k_candidates. rewrite Hc.
    cbn [truthy py_len bind List.length Nat.ltb Nat.leb py_first py_get].
    unfold dict_get in Hcontent. rewrite Hcontent. reflexivity.
Qed.

Lemma success_mark_only_checks_default_witness :
  let r := {| status_code := 200; text := [];
              body := Loaded (JObj [(k_candidates, JList [])]);
              events := [] |} in
  raises_for_status r = false
  /\ body r = Loaded (JObj [(k_candidates, JList [])])
  /\ truthy (dict_get [(k_candidates, JList [])] k_candidates) = false
  /\ read_answer generation_http_message no_generated_content
       (inject_Z 0) (inject_Z 1) (PostReturned r)
     = Generated NoCandidates (millis (inject_Z 0) (inject_Z 1)) true.
Proof.
  cbv zeta. do 3 (split; [reflexivity|]).
  exact (proj1 (proj2 (success_mark_only_checks_default
                         generation_http_message no_generated_content
                         (inject_Z 0) (inject_Z 1)
                         {| status_code := 200; text := [];
                            body := Loaded (JObj [(k_candidates, JList [])]);
                            events := [] |}
                         [(k_candidates, JList [])] eq_refl eq_refl))
           eq_refl).
Defined.

(** ** The two checks *)

(** X12. [test_health_check] reports the service as healthy only for an
    answer whose status is not 4xx or 5xx and whose body decodes to an
    object; the configured mark then is the truth value of
    [apiConfigured] and a missing [status] shows as "unknown".  An answer
    with an error status is a failure even when its body is a well-formed
    health object, and the unreachable message, which names the address of
    the tester, is given exactly when the connection is refused. *)
Theorem health_check_outcomes (self : BackendTester) (get : str -> fetched) :
  (forall status timestamp uptime api version active most,
     test_health_check self get
     = HealthOk status timestamp uptime api version active most ->
     exists r d,
       get (base_url self ++ lit "/api/health") = GetReturned r
       /\ raises_for_status r = false
       /\ body r = Loaded (JObj d)
       /\ api = truthy (dict_get d (lit "apiConfigured"))
       /\ status = match lookup (lit "status") d with
                   | Some x => x
                   | None => JStr s_unknown
                   end)
  /\ (forall r,
        get (base_url self ++ lit "/api/health") = GetReturned r ->
        raises_for_status r = true ->
        test_health_check self get
        = HealthFailed (HttpStatusError (status_code r)))
  /\ (forall base,
        test_health_check self get = Unreachable base
        <-> get (base_url self ++ lit "/api/health") = GetRefused
            /\ base = base_url self).
Proof.
  unfold test_health_check. split.
  { intros status timestamp uptime api version active most.
    destruct (get _) as [| |r]; try discriminate.
    destruct (raises_for_status r) eqn:Hr; [discriminate|].
    destruct (body r) as [|data|why] eqn:Hb; [discriminate| |discriminate].
    destruct data; try discriminate.
    cbn [py_get bind]. intros H; inversion H; subst.
    exists r, fields. repeat split; assumption || reflexivity. }
  split.
  { intros r -> Hr. now rewrite Hr. }
  intros base. split.
  - destruct (get _) as [| |r]; try discriminate.
    + intros H; inversion H. split; reflexivity.
    + destruct (raises_for_status r); [discriminate|].
      destruct (body r) as [|data|why]; [discriminate| |discriminate].
      destruct data; discriminate.
  - intros [-> ->]. reflexivity.
Qed.

Lemma health_check_outcomes_witness :
  let self := {| base_url := lit "http://localhost:3001" |} in
  let r := {| status_code := 503; text := [];
              body := Loaded (JObj [(lit "status", JStr (lit "ok"))]);
              events := [] |} in
  let get := fun _ : str => GetReturned r in
  get (base_url self ++ lit "/api/health") = GetReturned r
  /\ raises_for_status r = true
  /\ test_health_check self get = HealthFailed (HttpStatusError 503).
Proof.
  cbv zeta. split; [reflexivity|]. split; [reflexivity|].
  exact (proj1 (proj2 (health_check_outcomes
                         {| base_url := lit "http://localhost:3001" |}
                         (fun _ : str =>
                            GetReturned
                              {| status_code := 503; text := [];
                                 body := Loaded (JObj [(lit "status",
                                                        JStr (lit "ok"))]);
                                 events := [] |})))
           _ eq_refl eq_refl).
Defined.

(** X13. [test_api_validation] never raises on the status: whatever the
    status code, an object body is read, and the status code alone picks
    the heading.  With 200 the result is the success text, also when
    [valid] is false; with any other code it is the rejection text.  The
    validity and configuration marks are the truth values of [valid] and
    [configured].  A refused connection is not told apart from another
    failure. *)
Theorem validation_heading_follows_status (self : BackendTester)
    (get : str -> fetched) :
  (forall r d,
     get (base_url self ++ lit "/api/validate") = GetReturned r ->
     body r = Loaded (JObj d) ->
     test_api_validation self get
     = if (status_code r =? 200)%Z
       then ValidationOk (truthy (dict_get d (lit "valid")))
              (truthy (dict_get d (lit "configured")))
              (match lookup (lit "models") d with
               | Some x => x
               | None => JInt 0
               end)
              (match lookup (lit "message") d with
               | Some x => x
               | None => JStr s_NA
               end)
       else ValidationRejected (truthy (dict_get d (lit "valid")))
              (truthy (dict_get d (lit "configured")))
              (match lookup (lit "message") d with
               | Some x => x
               | None => JStr s_NA
               end))
  /\ (forall status,
        test_api_validation self get
        <> ValidationFailed (HttpStatusError status))
  /\ (forall base, test_api_validation self get <> Unreachable base).
Proof.
  unfold test_api_validation. split.
  { intros r d -> ->. cbn [py_get bind]. unfold dict_get.
    destruct (status_code r =? 200)%Z; reflexivity. }
  split.
  - intros status. destruct (get _) as [| |r]; try discriminate.
    destruct (body r) as [|data|why]; [discriminate| |discriminate].
    destruct data; destruct (status_code r =? 200)%Z; discriminate.
  - intros base. destruct (get _) as [| |r]; try discriminate.
    destruct (body r) as [|data|why]; [discriminate| |discriminate].
    destruct data; destruct (status_code r =? 200)%Z; discriminate.
Qed.

Lemma validation_heading_follows_status_witness :
  let self := {| base_url := lit "http://localhost:3001" |} in
  let d := [(lit "valid", JBool false); (lit "message", JStr (lit "no key"))] in
  let r := {| status_code := 200; text := []; body := Loaded (JObj d);
              events := [] |} in
  let get := fun _ : str => GetReturned r in
  get (base_url self ++ lit "/api/validate") = GetReturned r
  /\ body r = Loaded (JObj d)
  /\ test_api_validation self get
     = ValidationOk false false (JInt 0) (JStr (lit "no key")).
Proof.
  cbv zeta. split; [reflexivity|]. split; [reflexivity|].
  rewrite (proj1 (validation_heading_follows_status
                    {| base_url := lit "http://localhost:3001" |}
                    (fun _ : str =>
                       GetReturned
                         {| status_code := 200; text := [];
                            body := Loaded
                                      (JObj [(lit "valid", JBool false);
                                             (lit "message",
                                              JStr (lit "no key"))]);
                            events := [] |}))
             _ [(lit "valid", JBool false);
                (lit "message", JStr (lit "no key"))] eq_refl eq_refl).
  reflexivity.
Defined.

(** ** The address of the backend *)

Lemma lstrip_slash_head (s : str) c t :
  lstrip_slash s = c :: t -> c <> 47%N.
Proof.
  induction s as [|x s IH]; cbn; [discriminate|].
  destruct (N.eqb x 47) eqn:Hx; [exact IH|].
  intros H; inversion H; subst. now apply N.eqb_neq.
Qed.

Lemma lstrip_slash_split (s : str) :
  exists k, s = repeat 47%N k ++ lstrip_slash s.
Proof.
  induction s as [|x s [k IH]]; cbn; [exists 0; reflexivity|].
  destruct (N.eqb x 47) eqn:Hx; [|exists 0; reflexivity].
  apply N.eqb_eq in Hx. subst. exists (S k). cbn. now rewrite <- IH.
Qed.

Lemma lstrip_slash_fixed (s : str) :
  lstrip_slash (lstrip_slash s) = lstrip_slash s.
Proof.
  destruct (lstrip_slash s) as [|c t] eqn:Hs; [reflexivity|].
  apply lstrip_slash_head in Hs. apply N.eqb_neq in Hs. cbn. now rewrite Hs.
Qed.

Lemma rev_repeat_slash k : rev (repeat 47%N k) = repeat 47%N k.
Proof.
  induction k as [|k IH]; [reflexivity|].
  cbn. rewrite IH. clear IH.
  induction k as [|k IH]; [reflexivity|]. cbn. now rewrite IH.
Qed.

(** X14. A tester never keeps a trailing slash in its address: what
    [BackendTester(url)] stores is [url] without the slashes at its end and
    nothing else is removed, so an address typed with or without them
    gives the same tester, and every request goes to the stored address
    followed by a path that starts with the single slash of its own. *)
Theorem tester_address_has_no_trailing_slash (address : str) :
  (forall p, base_url (BackendTester_init address) <> p ++ [47%N])
  /\ (exists k,
        address = base_url (BackendTester_init address) ++ repeat 47%N k)
  /\ BackendTester_init (address ++ [47%N]) = BackendTester_init address
  /\ BackendTester_init (base_url (BackendTester_init address))
     = BackendTester_init address
  /\ forall post q s,
       is_empty (strip q) = false ->
       map url (posts (test_stream_generation (BackendTester_init address)
                         post q s))
       = [rstrip_slash address ++ lit "/api/gemini/stream"].
Proof.
  unfold BackendTester_init. cbn [base_url]. unfold rstrip_slash.
  split.
  { intros p Hp. apply (f_equal (@rev codepoint)) in Hp.
    rewrite rev_involutive, rev_app_distr in Hp. cbn in Hp.
    now apply lstrip_slash_head in Hp. }
  split.
  { destruct (lstrip_slash_split (rev address)) as [k Hk].
    exists k. apply (f_equal (@rev codepoint)) in Hk.
    rewrite rev_involutive, rev_app_distr, rev_repeat_slash in Hk.
    exact Hk. }
  split.
  { rewrite rev_app_distr. reflexivity. }
  split.
  { now rewrite rev_involutive, lstrip_slash_fixed. }
  intros post q s Hq. unfold test_stream_generation. rewrite Hq. reflexivity.
Qed.

Lemma tester_address_has_no_trailing_slash_witness :
  is_empty (strip (lit "hi")) = false
  /\ map url (posts (test_stream_generation
                       (BackendTester_init (lit "http://localhost:3001//"))
                       (fun _ => PostRaised) (lit "hi") (inject_Z 0)))
     = [lit "http://localhost:3001/api/gemini/stream"].
Proof.
  split; [reflexivity|].
  rewrite (proj2 (proj2 (proj2 (proj2
             (tester_address_has_no_trailing_slash
                (lit "http://localhost:3001//")))))
             (fun _ => PostRaised) (lit "hi") (inject_Z 0) eq_refl).
  reflexivity.
Defined.

(** ** The update button *)

(** X15. [update_server_url] rebinds the global tester only.  After it, the
    two streaming wrappers, which read the global when they run, post to
    the new address; the health, validation, standard generation and
    vision analysis buttons, bound in [create_interface] to the methods of
    the tester of that time, still reach the old address. *)
Theorem update_reaches_streaming_tests_only (old : BackendTester)
    (address : str) :
  let ui := fst (update_server_url address (create_interface old)) in
  (forall post q s,
     start_stream_test ui post q s
     = test_stream_generation (BackendTester_init address) post q s)
  /\ (forall post image q s,
        start_vision_stream_test ui post image q s
        = test_vision_stream_analysis (BackendTester_init address) post
            image q s)
  /\ (forall get, health_click ui get = test_health_check old get)
  /\ (forall get, validate_click ui get = test_api_validation old get)
  /\ (forall post q s e,
        standard_click ui post q s e
        = test_standard_generation old post q s e)
  /\ (forall post image q s e,
        vision_click ui post image q s e
        = test_vision_analysis old post image q s e)
  /\ (forall post q s e,
        is_empty (strip q) = false ->
        map url (posts (start_stream_test ui post q s))
        = [rstrip_slash address ++ lit "/api/gemini/stream"]
        /\ map url (posts (standard_click ui post q s e))
           = [base_url old ++ lit "/api/gemini/generate"]).
Proof.
  cbv zeta. repeat split; try reflexivity.
  - unfold start_stream_test, test_stream_generation.
    match goal with Hq : is_empty _ = false |- _ => rewrite Hq end.
    reflexivity.
  - unfold standard_click, test_standard_generation.
    match goal with Hq : is_empty _ = false |- _ => rewrite Hq end.
    reflexivity.
Qed.

Lemma update_reaches_streaming_tests_only_witness :
  let old := BackendTester_init (lit "http://localhost:3001") in
  let ui := fst (update_server_url (lit "http://example.org:8080/")
                   (create_interface old)) in
  let post := fun _ : request => PostRaised in
  is_empty (strip (lit "hi")) = false
  /\ map url (posts (start_stream_test ui post (lit "hi") (inject_Z 0)))
     = [lit "http://example.org:8080/api/gemini/stream"]
  /\ map url (posts (standard_click ui post (lit "hi") (inject_Z 0)
                       (inject_Z 1)))
     = [lit "http://localhost:3001/api/gemini/generate"].
Proof.
  cbv zeta. split; [reflexivity|].
  destruct (proj2 (proj2 (proj2 (proj2 (proj2 (proj2
              (update_reaches_streaming_tests_only
                 (BackendTester_init (lit "http://localhost:3001"))
                 (lit "http://example.org:8080/")))))))
              (fun _ : request => PostRaised) (lit "hi") (inject_Z 0)
              (inject_Z 1) eq_refl) as [Hstream Hstandard].
  split.
  - rewrite Hstream. reflexivity.
  - rewrite Hstandard. reflexivity.
Defined.
